(** * The naive (single accelerator) training strategy

    A shallow embedding of
    [applications/Chat/coati/trainer/strategies/naive.py]: the helper
    [get_grad_required_state_dict] and the methods [setup_distributed],
    [save_pretrained], [get_model_state_dict_shard] and [_try_init_dist] of
    [NaiveStrategy].

    The Python code runs against three pieces of process state: the
    environment [os.environ], the tensor objects of the models it is handed,
    and the external libraries it calls (torch.distributed, torch.cuda,
    transformers).  They are gathered in a [World]; every function of the
    source is a computation in a state-and-exception monad over it. *)

From stdpp Require Import gmap strings list pretty.
From Stdlib Require Import ZArith Lia Ascii.

Open Scope Z_scope.

(** ** Python values *)

Module Py.

(** The exception classes that the source names or that its builtins
    raise.  [OtherException] stands for any further subclass of
    [Exception] that is not a [KeyError]; [OtherBaseException] for the
    classes that derive from [BaseException] only ([KeyboardInterrupt],
    [SystemExit], ...). *)
Inductive exn_class :=
| KeyError
| ValueError
| RuntimeError
| AssertionError
| OtherException (name : string)
| OtherBaseException (name : string).

(** An exception object: its class and what [str(e)] returns. *)
Record exn := Exn { exn_class_of : exn_class; exn_str : string }.

(** [isinstance(e, KeyError)] *)
Definition is_KeyError (e : exn) : bool :=
  match exn_class_of e with KeyError => true | _ => false end.

(** [isinstance(e, Exception)] *)
Definition is_Exception (e : exn) : bool :=
  match exn_class_of e with OtherBaseException _ => false | _ => true end.

(** *** [repr(s)] of a string

    The quote is the single one unless the string holds single quotes and
    no double quote; the quote and the backslash are escaped, tab, line
    feed and carriage return are written with their letters and the other
    control characters in hexadecimal.  This is [repr] on ASCII strings;
    beyond ASCII what Python escapes depends on its Unicode tables, and
    the character is kept here. *)

Definition single_quote : ascii := ascii_of_nat 39.
Definition double_quote : ascii := ascii_of_nat 34.
Definition backslash : ascii := ascii_of_nat 92.

Definition hex_digit (n : nat) : ascii :=
  ascii_of_nat (if Nat.ltb n 10 then 48 + n else 87 + n).

Definition repr_char (quote c : ascii) : list ascii :=
  let n := nat_of_ascii c in
  if Ascii.eqb c quote || Ascii.eqb c backslash then [backslash; c]
  else if Nat.eqb n 9 then [backslash; "t"%char]
  else if Nat.eqb n 10 then [backslash; "n"%char]
  else if Nat.eqb n 13 then [backslash; "r"%char]
  else if Nat.ltb n 32 || Nat.eqb n 127
  then [backslash; "x"%char; hex_digit (Nat.div n 16); hex_digit (Nat.modulo n 16)]
  else [c].

Definition repr_quote (l : list ascii) : ascii :=
  if existsb (Ascii.eqb single_quote) l && negb (existsb (Ascii.eqb double_quote) l)
  then double_quote else single_quote.

Definition repr_ascii (l : list ascii) : list ascii :=
  let quote := repr_quote l in
  quote :: flat_map (repr_char quote) l ++ [quote].

Definition repr (s : string) : string :=
  String.string_of_list_ascii (repr_ascii (String.list_ascii_of_string s)).

(** [str(n)] and [f'{n}'] of an integer. *)
Definition str_of_int (n : Z) : string := pretty n.

(** *** [int(s)] on a string

    As CPython 3.11 does it with its default settings, on ASCII strings:
    white space (tab to carriage return, and the space) is skipped, one
    sign is allowed, then comes a run of digits that single underscores
    may group and that holds no more than [max_str_digits] digits, and
    only white space may follow.  A string with characters beyond ASCII
    is rejected here, while Python also reads the decimal digits and the
    white space of other scripts: where a property depends on [int]
    failing, it is stated for ASCII values. *)

Definition is_space (c : ascii) : bool :=
  let n := nat_of_ascii c in
  (Nat.leb 9 n && Nat.leb n 13) || Nat.eqb n 32.

Definition digit_of (c : ascii) : option Z :=
  let n := Z.of_nat (nat_of_ascii c) in
  if (48 <=? n) && (n <=? 57) then Some (n - 48) else None.

Fixpoint lstrip (l : list ascii) : list ascii :=
  match l with
  | c :: l' => if is_space c then lstrip l' else l
  | [] => []
  end.

(** [sys.get_int_max_str_digits()] *)
Definition max_str_digits : Z := 4300.

(** The run of digits and underscores at the head of the string: its
    value, the number of its digits and what follows it; the run is
    refused when two underscores meet or one ends it. *)
Inductive scanned :=
| Refused
| Scanned (value ndigits : Z) (rest : list ascii).

Fixpoint scan (acc ndigits : Z) (after_underscore : bool) (l : list ascii)
    : scanned :=
  match l with
  | c :: l' =>
      match digit_of c with
      | Some d => scan (10 * acc + d) (ndigits + 1) false l'
      | None =>
          if Ascii.eqb c "_" then
            if after_underscore then Refused else scan acc ndigits true l'
          else if after_underscore then Refused
          else Scanned acc ndigits l
      end
  | [] => if after_underscore then Refused else Scanned acc ndigits []
  end.

Inductive int_outcome :=
| IntValue (n : Z)
| IntInvalid
| IntTooLong (ndigits : Z).

Definition signed (l : list ascii) : bool * list ascii :=
  match l with
  | c :: l' =>
      if Ascii.eqb c "-" then (true, l')
      else if Ascii.eqb c "+" then (false, l')
      else (false, l)
  | [] => (false, [])
  end.

Definition starts_with_underscore (l : list ascii) : bool :=
  match l with
  | c :: _ => Ascii.eqb c "_"
  | [] => false
  end.

Definition int_of_ascii (l : list ascii) : int_outcome :=
  let '(negative, l) := signed (lstrip l) in
  if starts_with_underscore l then IntInvalid
  else
    match scan 0 0 false l with
    | Refused => IntInvalid
    | Scanned value ndigits rest =>
        if max_str_digits <? ndigits then IntTooLong ndigits
        else if ndigits =? 0 then IntInvalid
        else if forallb is_space rest
        then IntValue (if negative then - value else value)
        else IntInvalid
    end.

Definition parse_int (s : string) : option Z :=
  match int_of_ascii (String.list_ascii_of_string s) with
  | IntValue n => Some n
  | _ => None
  end.

(** The [ValueError] of [int(s)] on a malformed string; the [repr] is cut
    at 200 characters. *)
Definition invalid_literal (s : string) : exn :=
  Exn ValueError
    ("invalid literal for int() with base 10: " +:+
     String.string_of_list_ascii
       (take 200 (repr_ascii (String.list_ascii_of_string s)))).

(** The [ValueError] of [int(s)] on a string with too many digits. *)
Definition too_many_digits (ndigits : Z) : exn :=
  Exn ValueError
    ("Exceeds the limit (" +:+ pretty max_str_digits +:+
     " digits) for integer string conversion: value has " +:+ pretty ndigits +:+
     " digits; use sys.set_int_max_str_digits() to increase the limit").

(** The exception of a failed [int(s)]. *)
Definition int_error (s : string) : exn :=
  match int_of_ascii (String.list_ascii_of_string s) with
  | IntTooLong ndigits => too_many_digits ndigits
  | _ => invalid_literal s
  end.

(** Whether a string is ASCII. *)
Definition is_ascii (s : string) : bool :=
  forallb (λ c, Nat.ltb (nat_of_ascii c) 128) (String.list_ascii_of_string s).

(** The [KeyError] of [os.environ[key]] on a missing key: its [str] is
    the [repr] of the key. *)
Definition missing_key (key : string) : exn := Exn KeyError (repr key).

(** The values a keyword argument of [**config] takes here. *)
Inductive value :=
| VBool (b : bool)
| VInt (n : Z).

(** A [bool] is an [int] in comparisons and arithmetic. *)
Definition as_int (v : value) : Z :=
  match v with
  | VBool b => if b then 1 else 0
  | VInt n => n
  end.

(** [v == True] *)
Definition eq_True (v : value) : bool := as_int v =? 1.

End Py.

Export Py.

(** ** Tensors *)

(** What the source observes of a tensor: which storage it views, its
    shape, the width of an element and its gradient flag. *)
Record Tensor := {
  storage : N;
  shape : list N;
  element_size : positive;
  requires_grad : bool
}.

(** [t.numel()] *)
Definition numel (t : Tensor) : Z :=
  Z.of_N (fold_right N.mul 1%N (shape t)).

(** [t.detach()]: a new tensor on the same storage, cut from the graph. *)
Definition detach (t : Tensor) : Tensor :=
  {| storage := storage t;
     shape := shape t;
     element_size := element_size t;
     requires_grad := false |}.

(** [param.numel() * param.element_size()] *)
Definition nbytes (t : Tensor) : Z := numel t * Z.pos (element_size t).

(** ** Ordered dictionaries *)

(** A [collections.OrderedDict] with string keys, as the list of its items
    in insertion order. *)
Definition OrderedDict (A : Type) : Type := list (string * A).

Definition od_empty {A} : OrderedDict A := [].

(** [d[k] = v]: an existing key keeps its place and takes the new value, a
    new key goes to the end. *)
Fixpoint od_set {A} (k : string) (v : A) (d : OrderedDict A) : OrderedDict A :=
  match d with
  | [] => [(k, v)]
  | (k', v') :: d' =>
      if decide (k' = k) then (k', v) :: d' else (k', v') :: od_set k v d'
  end.

Definition od_keys {A} (d : OrderedDict A) : list string := d.*1.

(** [d.get(k)] *)
Fixpoint od_get {A} (k : string) (d : OrderedDict A) : option A :=
  match d with
  | [] => None
  | (k', v) :: d' => if decide (k' = k) then Some v else od_get k d'
  end.

(** ** The world the strategy runs in *)

(** A reference to a parameter or buffer object of a model. *)
Definition ref : Type := N.

(** A [torch.nn.Module] as this file uses it. *)
Record Model := {
  (** the pairs [model.named_parameters()] iterates over *)
  named_parameters : list (string * ref);
  (** the parameters and persistent buffers [model.state_dict()] walks *)
  state_entries : list (string * ref);
  (** [isinstance(model, PreTrainedModel)] *)
  is_PreTrainedModel : bool
}.

(** A tokenizer object, by identity. *)
Definition Tokenizer : Type := N.

(** The calls into the external libraries. *)
Inductive call :=
| init_process_group (backend init_method : string) (world_size rank : Z)
| set_device (device : Z)
| model_save_pretrained (model : Model) (save_directory : string)
| tokenizer_save_pretrained (tokenizer : Tokenizer) (save_directory : string).

Record World := {
  (** [os.environ] *)
  environ : gmap string string;
  (** the tensor object behind each reference *)
  tensors : ref -> Tensor;
  (** the external calls made so far, oldest first *)
  calls : list call
}.

Definition record_call (c : call) (w : World) : World :=
  {| environ := environ w; tensors := tensors w; calls := calls w ++ [c] |}.

(** ** Computations: state and exceptions *)

Inductive outcome (A : Type) :=
| Return (a : A)
| Raise (e : exn).
Arguments Return {A} a.
Arguments Raise {A} e.

Definition M (A : Type) : Type := World -> outcome A * World.

Definition ret {A} (a : A) : M A := fun w => (Return a, w).

Definition raise {A} (e : exn) : M A := fun w => (Raise e, w).

Definition bind {A B} (c : M A) (k : A -> M B) : M B :=
  fun w =>
    match c w with
    | (Return a, w') => k a w'
    | (Raise e, w') => (Raise e, w')
    end.

Notation "'let*' x ':=' c 'in' k" := (bind c (fun x => k))
  (at level 10, x pattern, c at level 100, k at level 200).

(** [try: body except ...: handler]; the handler receives every exception
    and re-raises the ones no clause matches. *)
Definition try_except {A} (body : M A) (handler : exn -> M A) : M A :=
  fun w =>
    match body w with
    | (Return a, w') => (Return a, w')
    | (Raise e, w') => handler e w'
    end.

(** [for x in xs: acc = step(acc, x)] *)
Fixpoint for_each {A S} (xs : list A) (acc : S) (step : S -> A -> M S) : M S :=
  match xs with
  | [] => ret acc
  | x :: xs' => let* acc' := step acc x in for_each xs' acc' step
  end.

(** [os.environ[key]] *)
Definition environ_get (key : string) : M string :=
  fun w =>
    match environ w !! key with
    | Some s => (Return s, w)
    | None => (Raise (missing_key key), w)
    end.

(** [int(s)] *)
Definition int (s : string) : M Z :=
  match parse_int s with
  | Some n => ret n
  | None => raise (int_error s)
  end.

(** [assert b] *)
Definition assertion (b : bool) : M unit :=
  if b then ret tt else raise (Exn AssertionError "").

(** Reading the tensor object behind a reference. *)
Definition deref (r : ref) : M Tensor := fun w => (Return (tensors w r), w).

(** [model.state_dict()] of torch: every entry, detached, under its name. *)
Definition state_dict (model : Model) : M (OrderedDict Tensor) :=
  for_each (state_entries model) od_empty (fun destination '(name, r) =>
    let* param := deref r in
    ret (od_set name (detach param) destination)).

(** ** The source *)

Definition get_grad_required_state_dict (model : Model) : M (OrderedDict Tensor) :=
  for_each (named_parameters model) od_empty (fun state_dict '(name, r) =>
    let* parameter := deref r in
    if requires_grad parameter
    then ret (od_set name (detach parameter) state_dict)
    else ret state_dict).

(** The loop of [get_model_state_dict_shard] over [state_dict.items()] and
    the statement after it, as the list of the dictionaries it yields. *)
Fixpoint shard_loop (shard_size : Z) (items : list (string * Tensor))
    (accumulate_size : Z) (state_dict_shard : OrderedDict Tensor)
    : list (OrderedDict Tensor) :=
  match items with
  | (name, param) :: items' =>
      let state_dict_shard := od_set name param state_dict_shard in
      let accumulate_size := accumulate_size + nbytes param in
      if shard_size <=? accumulate_size
      then state_dict_shard :: shard_loop shard_size items' 0 od_empty
      else shard_loop shard_size items' accumulate_size state_dict_shard
  | [] =>
      if 0 <? accumulate_size then [state_dict_shard] else []
  end.

Section NaiveStrategy.

(** [Strategy.unwrap_model], of the base class. *)
Variable unwrap_model : Model -> Model.

(** The external libraries: whether a call raises, and what, in a given
    world. *)
Variable library : call -> World -> option exn.

(** An external call: it is made, and it returns or raises. *)
Definition extern (c : call) : M unit :=
  fun w =>
    match library c w with
    | None => (Return tt, record_call c w)
    | Some e => (Raise e, record_call c w)
    end.

(** The body of the [try] statement of [_try_init_dist]. *)
Definition _try_init_dist_body : M unit :=
  let* rank := (let* s := environ_get "RANK" in int s) in
  let* local_rank := (let* s := environ_get "LOCAL_RANK" in int s) in
  let* world_size := (let* s := environ_get "WORLD_SIZE" in int s) in
  let* host := environ_get "MASTER_ADDR" in
  let* port := (let* s := environ_get "MASTER_PORT" in int s) in
  let* _ := extern (init_process_group "nccl"
                      ("tcp://[" +:+ host +:+ "]:" +:+ str_of_int port)
                      world_size rank) in
  extern (set_device local_rank).

Definition not_found_message (e : exn) : string :=
  "Could not find " +:+ exn_str e +:+
  " in the torch environment, visit https://www.colossalai.org/ for more information on launching with torch".

Definition _try_init_dist (force : bool) : M unit :=
  try_except _try_init_dist_body (fun e =>
    if is_KeyError e then
      if force then raise (Exn RuntimeError (not_found_message e)) else ret tt
    else if is_Exception e then
      if force then raise e else ret tt
    else raise e).

Definition setup_distributed : M unit := _try_init_dist false.

Definition save_pretrained (model : Model) (path : string)
    (only_rank0 : bool) (tokenizer : option Tokenizer) : M unit :=
  let unwrapped_model := unwrap_model model in
  let* _ := assertion (is_PreTrainedModel unwrapped_model) in
  let* _ := extern (model_save_pretrained unwrapped_model path) in
  match tokenizer with
  | Some tokenizer => extern (tokenizer_save_pretrained tokenizer path)
  | None => ret tt
  end.

(** The generator, run to exhaustion: the dictionaries it yields, in
    order. *)
Definition get_model_state_dict_shard (model : Model)
    (config : gmap string value) : M (list (OrderedDict Tensor)) :=
  let model := unwrap_model model in
  let* state_dict :=
    (if match config !! "requires_grad_only" with
        | Some v => eq_True v
        | None => false
        end
     then get_grad_required_state_dict model
     else state_dict model) in
  match config !! "shard_size" with
  | Some shard_size =>
      ret (shard_loop (as_int shard_size) state_dict 0 od_empty)
  | None => ret [state_dict]
  end.

End NaiveStrategy.

(** ** Notions the properties are stated with *)

(** The named parameters whose gradient flag is set, detached, in the
    order [model.named_parameters()] gives them: what the specification
    asks [get_grad_required_state_dict] to return. *)
Definition grad_required (w : World) (model : Model) : OrderedDict Tensor :=
  (λ p, (p.1, detach (tensors w p.2))) <$>
  filter (λ p, requires_grad (tensors w p.2) = true) (named_parameters model).

(** One turn of the loop of [get_grad_required_state_dict], on values. *)
Definition grad_step (w : World) (d : OrderedDict Tensor) (p : string * ref)
    : OrderedDict Tensor :=
  if requires_grad (tensors w p.2) then od_set p.1 (detach (tensors w p.2)) d
  else d.

(** The five variables [_try_init_dist] reads, in the order it reads
    them. *)
Definition required_variables : list string :=
  ["RANK"; "LOCAL_RANK"; "WORLD_SIZE"; "MASTER_ADDR"; "MASTER_PORT"].

(** A variable the body reads and converts: every one but the host. *)
Definition converted (u : string) : bool :=
  negb (String.eqb u "MASTER_ADDR").

(** The bytes a dictionary of tensors holds. *)
Definition total_bytes (d : OrderedDict Tensor) : Z :=
  foldr (λ p acc, nbytes p.2 + acc) 0 d.

(** One turn of the loop of [state_dict], on values. *)
Definition state_step (w : World) (d : OrderedDict Tensor) (p : string * ref)
    : OrderedDict Tensor :=
  od_set p.1 (detach (tensors w p.2)) d.

(** [config['requires_grad_only'] == True], when the key is there. *)
Definition requires_grad_only (config : gmap string value) : bool :=
  match config !! "requires_grad_only" with
  | Some v => eq_True v
  | None => false
  end.

(** The value of the variable [state_dict] of
    [get_model_state_dict_shard] for the unwrapped model. *)
Definition selected_state_dict (w : World) (config : gmap string value)
    (model : Model) : OrderedDict Tensor :=
  if requires_grad_only config
  then fold_left (grad_step w) (named_parameters model) od_empty
  else fold_left (state_step w) (state_entries model) od_empty.

(** ** Sample models, environments and libraries *)

(** A model with a frozen embedding between two trainable tensors, and a
    buffer that only [state_dict()] sees. *)
Definition example_model : Model :=
  {| named_parameters := [("wte.weight", 0%N); ("h.0.weight", 1%N); ("h.0.bias", 2%N)];
     state_entries := [("wte.weight", 0%N); ("h.0.weight", 1%N); ("h.0.bias", 2%N);
                       ("h.0.mask", 3%N)];
     is_PreTrainedModel := true |}.

(** Its tensors: three of four-byte floats, and a byte mask without
    elements. *)
Definition example_tensor (r : ref) : Tensor :=
  match r with
  | 0%N => {| storage := 10; shape := [8; 4]%N; element_size := 4; requires_grad := false |}
  | 1%N => {| storage := 11; shape := [4; 4]%N; element_size := 4; requires_grad := true |}
  | 2%N => {| storage := 12; shape := [4]%N; element_size := 4; requires_grad := true |}
  | _ => {| storage := 13; shape := [0]%N; element_size := 1; requires_grad := false |}
  end.

(** A process that was not launched for distributed training. *)
Definition example_world : World :=
  {| environ := ∅; tensors := example_tensor; calls := [] |}.

(** A launcher's environment for the second of four processes. *)
Definition example_environ : gmap string string :=
  <["RANK" := "1"]> (<["LOCAL_RANK" := "1"]> (<["WORLD_SIZE" := "4"]>
  (<["MASTER_ADDR" := "10.0.0.7"]> (<["MASTER_PORT" := "29500"]> ∅)))).

Definition launched_world : World :=
  {| environ := example_environ; tensors := example_tensor; calls := [] |}.

(** Libraries in which every call returns. *)
Definition library_ok : call → World → option exn := λ _ _, None.

(** The environment of a process started by hand: only the rank is set. *)
Definition bare_world : World :=
  {| environ := <["RANK" := "0"]> ∅; tensors := example_tensor; calls := [] |}.

(** The environment of a process whose rank is not a number and whose
    other variables are missing. *)
Definition malformed_world : World :=
  {| environ := <["RANK" := "abc"]> ∅; tensors := example_tensor; calls := [] |}.

(** A communication library that was built without NCCL. *)
Definition library_without_nccl : call → World → option exn :=
  λ c _,
    match c with
    | init_process_group _ _ _ _ =>
        Some (Exn RuntimeError "Distributed package doesn't have NCCL built in")
    | _ => None
    end.

(** A build of the communication library in which looking up the backend
    fails with a [KeyError]. *)
Definition library_without_backend : call → World → option exn :=
  λ c _,
    match c with
    | init_process_group backend _ _ _ => Some (Exn KeyError (repr backend))
    | _ => None
    end.

(** A run in which the user interrupts the rendezvous. *)
Definition library_interrupted : call → World → option exn :=
  λ c _,
    match c with
    | init_process_group _ _ _ _ =>
        Some (Exn (OtherBaseException "KeyboardInterrupt") "")
    | _ => None
    end.

(** A file system that is full when the model is written. *)
Definition library_disk_full : call → World → option exn :=
  λ c _,
    match c with
    | model_save_pretrained _ _ =>
        Some (Exn (OtherException "OSError") "[Errno 28] No space left on device")
    | _ => None
    end.

(** A module that is not a [PreTrainedModel]. *)
Definition plain_module : Model :=
  {| named_parameters := [("weight", 1%N)];
     state_entries := [("weight", 1%N)];
     is_PreTrainedModel := false |}.

(** ** The rest of the strategy *)

(** The strategy object: the name of its class and its [plugin]
    attribute, [None] when no plugin was given. *)
Record Strategy := {
  class_name : string;
  plugin : option N
}.

(** [x is None] *)
Definition is_None {A} (x : option A) : bool :=
  match x with
  | None => true
  | Some _ => false
  end.

(** [assert b, msg] *)
Definition assertion_msg (b : bool) (msg : string) : M unit :=
  if b then ret tt else raise (Exn AssertionError msg).

Definition _post_init (self : Strategy) : M unit :=
  assertion_msg (is_None (plugin self))
    (class_name self +:+ "'s plugin is not initialized properly.").

Section Backward.

(** [loss.backward()], of torch's automatic differentiation. *)
Variable loss_backward : ref → M unit.

Definition backward (self : Strategy) (loss : ref) (model : Model)
    (optimizer : N) (kwargs : gmap string value) : M unit :=
  let* _ := assertion_msg (is_None (plugin self))
              "DO NOT call this method if plugin is not None" in
  loss_backward loss.

End Backward.

(** The values of the variables that are read as numbers are ASCII. *)
Definition ascii_numbers (w : World) : Prop :=
  ∀ v s, v ∈ required_variables → converted v = true →
         environ w !! v = Some s → is_ascii s = true.

(** A variable the body can use: present and, where the body converts it,
    a number. *)
Definition well_formed (w : World) (v : string) : Prop :=
  ∃ s, environ w !! v = Some s ∧
       (converted v = true → is_Some (parse_int s)).

(** A strategy as [NaiveStrategy()] builds it, and one that was handed a
    plugin. *)
Definition naive_strategy : Strategy :=
  {| class_name := "NaiveStrategy"; plugin := None |}.

Definition strategy_with_plugin : Strategy :=
  {| class_name := "NaiveStrategy"; plugin := Some 5%N |}.

(** An automatic differentiation that returns. *)
Definition backward_ok : ref → M unit := λ _, ret tt.

(** Libraries that fail with a [RuntimeError] when the device is
    selected. *)
Definition library_no_device : call → World → option exn :=
  λ c _,
    match c with
    | set_device _ => Some (Exn RuntimeError "CUDA error: invalid device ordinal")
    | _ => None
    end.

(** The environment of a process whose local rank is not an integer and
    whose other variables, but for the rank, are missing. *)
Definition half_malformed_world : World :=
  {| environ := <["RANK" := "0"]> (<["LOCAL_RANK" := "1.5"]> ∅);
     tensors := example_tensor; calls := [] |}.

(** A model whose parameters are all frozen. *)
Definition frozen_model : Model :=
  {| named_parameters := [("wte.weight", 0%N)];
     state_entries := [("wte.weight", 0%N)];
     is_PreTrainedModel := true |}.

(** A model whose parameters are all trained. *)
Definition trainable_model : Model :=
  {| named_parameters := [("h.0.weight", 1%N); ("h.0.bias", 2%N)];
     state_entries := [("h.0.weight", 1%N); ("h.0.bias", 2%N)];
     is_PreTrainedModel := true |}.

(** * Properties *)

(** ** Ordered dictionaries *)

Section OrderedDictFacts.

Context {A : Type}.
Implicit Types (d : OrderedDict A) (k : string) (v : A).

Lemma od_set_fresh k v d :
  k ∉ od_keys d → od_set k v d = d ++ [(k, v)].
Proof.
  unfold od_keys. induction d as [|[k' v'] d IH]; simpl; intros Hk; [done|].
  apply not_elem_of_cons in Hk as [Hne Hk].
  destruct (decide (k' = k)); [congruence|]. by rewrite IH.
Qed.

Lemma od_set_keys_elem k v d :
  k ∈ od_keys d → od_keys (od_set k v d) = od_keys d.
Proof.
  unfold od_keys. induction d as [|[k' v'] d IH]; intros Hin.
  - by apply elem_of_nil in Hin.
  - cbn [od_set]. destruct (decide (k' = k)) as [->|Hne]; [done|].
    apply elem_of_cons in Hin as [?|Hin]; [done|].
    cbn. f_equal. by apply IH.
Qed.

Lemma od_set_keys k v d :
  od_keys (od_set k v d) =
  if decide (k ∈ od_keys d) then od_keys d else od_keys d ++ [k].
Proof.
  case_decide.
  - by apply od_set_keys_elem.
  - rewrite od_set_fresh by done. unfold od_keys. by rewrite fmap_app.
Qed.

Lemma od_set_NoDup k v d : NoDup (od_keys d) → NoDup (od_keys (od_set k v d)).
Proof.
  intros Hd. rewrite od_set_keys. case_decide; [done|].
  apply NoDup_app. split_and!; [done| |apply NoDup_singleton].
  intros x Hx ->%list_elem_of_singleton. done.
Qed.

Lemma od_set_not_empty k v d : od_set k v d ≠ [].
Proof. destruct d as [|[k' v'] d]; simpl; [done|]. by case_decide. Qed.

Lemma od_get_Some k v d :
  NoDup (od_keys d) → (k, v) ∈ d → od_get k d = Some v.
Proof.
  unfold od_keys. induction d as [|[k' v'] d IH]; simpl; intros Hd Hin.
  - by apply elem_of_nil in Hin.
  - apply NoDup_cons in Hd as [Hk' Hd].
    apply elem_of_cons in Hin as [[= <- <-]|Hin].
    + by rewrite decide_True.
    + rewrite decide_False; [by apply IH|].
      intros ->. apply Hk'. apply list_elem_of_fmap. by exists (k, v).
Qed.

End OrderedDictFacts.

(** ** Loops that only read *)

(** A loop whose turns return without changing the world is a fold. *)
Lemma for_each_reads {A S} (step : S → A → M S) (f : S → A → S) w xs acc :
  (∀ acc x, step acc x w = (Return (f acc x), w)) →
  for_each xs acc step w = (Return (fold_left f xs acc), w).
Proof.
  intros Hstep. revert acc. induction xs as [|x xs IH]; intros acc; [done|].
  simpl. unfold bind. by rewrite Hstep.
Qed.

(** ** The gradient filter *)

Lemma get_grad_required_state_dict_fold model w :
  get_grad_required_state_dict model w =
  (Return (fold_left (grad_step w) (named_parameters model) od_empty), w).
Proof.
  apply for_each_reads. intros d [name r].
  unfold bind, deref, grad_step. simpl.
  by destruct (requires_grad (tensors w r)).
Qed.

Lemma grad_fold_keys_NoDup w l d :
  NoDup (od_keys d) → NoDup (od_keys (fold_left (grad_step w) l d)).
Proof.
  revert d. induction l as [|p l IH]; intros d Hd; [done|].
  simpl. apply IH. unfold grad_step.
  destruct (requires_grad (tensors w p.2)); [by apply od_set_NoDup|done].
Qed.

Lemma grad_fold_fresh w l d :
  NoDup (od_keys d ++ l.*1) →
  fold_left (grad_step w) l d =
  d ++ ((λ p, (p.1, detach (tensors w p.2))) <$>
        filter (λ p, requires_grad (tensors w p.2) = true) l).
Proof.
  revert d. induction l as [|[name r] l IH]; intros d Hnd; simpl.
  - by rewrite app_nil_r.
  - rewrite filter_cons. unfold grad_step at 2. simpl.
    apply NoDup_app in Hnd as (Hd & Hdisj & Hl).
    apply NoDup_cons in Hl as [Hname Hl].
    assert (name ∉ od_keys d) as Hfresh.
    { intros Hin. apply (Hdisj _ Hin). apply list_elem_of_here. }
    destruct (requires_grad (tensors w r)) eqn:Hg.
    + rewrite decide_True by done. rewrite od_set_fresh by done.
      rewrite IH.
      * by rewrite <- app_assoc.
      * unfold od_keys. rewrite fmap_app. simpl.
        rewrite <- app_assoc. simpl.
        apply NoDup_app. split_and!; [done| |by apply NoDup_cons].
        intros x Hx Hx'. by apply (Hdisj x).
    + rewrite decide_False by done. apply IH.
      apply NoDup_app. split_and!; [done| |done].
      intros x Hx Hx'. apply (Hdisj x Hx). by apply list_elem_of_further.
Qed.

(** The keys of the result, whatever the names are. *)
Lemma grad_fold_keys w l d name :
  name ∈ od_keys (fold_left (grad_step w) l d) ↔
  name ∈ od_keys d ∨ ∃ r, (name, r) ∈ l ∧ requires_grad (tensors w r) = true.
Proof.
  revert d. induction l as [|[n r] l IH]; intros d; simpl.
  - split; [by left|]. intros [?|(r & Hin & _)]; [done|].
    by apply elem_of_nil in Hin.
  - rewrite IH. unfold grad_step. simpl.
    destruct (requires_grad (tensors w r)) eqn:Hg.
    + rewrite od_set_keys. split.
      * intros [Hin|(r' & Hin & Hr')].
        -- case_decide; [by left|].
           apply elem_of_app in Hin as [?|Hs]; [by left|].
           apply list_elem_of_singleton in Hs as ->.
           right. exists r. split; [apply list_elem_of_here|done].
        -- right. exists r'. split; [by apply list_elem_of_further|done].
      * intros [Hin|(r' & Hin & Hr')].
        -- left. case_decide; [done|]. apply elem_of_app. by left.
        -- apply elem_of_cons in Hin as [Heq|Hin].
           ++ simplify_eq. left. case_decide; [done|]. apply elem_of_app.
              right. by apply list_elem_of_singleton.
           ++ right. by exists r'.
    + split.
      * intros [?|(r' & Hin & Hr')]; [by left|].
        right. exists r'. split; [by apply list_elem_of_further|done].
      * intros [?|(r' & Hin & Hr')]; [by left|].
        apply elem_of_cons in Hin as [Heq|Hin]; [simplify_eq; congruence|].
        right. by exists r'.
Qed.

(** C1. [get_grad_required_state_dict(model)] returns exactly the named
    parameters of the model whose [requires_grad] flag is set: a name is a
    key of the result if and only if the model has a named parameter of
    that name with the flag set, the value under it is that parameter,
    detached, and the keys come in the order in which
    [model.named_parameters()] gives them.  The names that
    [named_parameters()] gives are distinct. *)
Theorem get_grad_required_state_dict_exact (model : Model) (w : World) :
  NoDup (named_parameters model).*1 →
  ∃ d : OrderedDict Tensor,
    get_grad_required_state_dict model w = (Return d, w) ∧
    (∀ name, name ∈ od_keys d ↔
       ∃ r, (name, r) ∈ named_parameters model ∧
            requires_grad (tensors w r) = true) ∧
    (∀ name r, (name, r) ∈ named_parameters model →
       requires_grad (tensors w r) = true →
       od_get name d = Some (detach (tensors w r))) ∧
    d = grad_required w model.
Proof.
  intros Hnd. eexists. split; [apply get_grad_required_state_dict_fold|].
  split; [|split].
  - intros name. rewrite grad_fold_keys. split; [|by right].
    intros [Hin|?]; [|done]. by apply elem_of_nil in Hin.
  - intros name r Hin Hg. apply od_get_Some.
    + by apply grad_fold_keys_NoDup, NoDup_nil.
    + rewrite grad_fold_fresh by done. simpl.
      apply list_elem_of_fmap. exists (name, r). split; [done|].
      by apply list_elem_of_filter.
  - by rewrite grad_fold_fresh.
Qed.

Lemma get_grad_required_state_dict_exact_witness :
  ∃ d : OrderedDict Tensor,
    get_grad_required_state_dict example_model example_world
      = (Return d, example_world) ∧
    (∀ name, name ∈ od_keys d ↔
       ∃ r, (name, r) ∈ named_parameters example_model ∧
            requires_grad (tensors example_world r) = true) ∧
    (∀ name r, (name, r) ∈ named_parameters example_model →
       requires_grad (tensors example_world r) = true →
       od_get name d = Some (detach (tensors example_world r))) ∧
    d = grad_required example_world example_model.
Proof.
  apply (get_grad_required_state_dict_exact example_model example_world).
  compute_done.
Defined.

(** ** Distributed initialization *)

(** A string that [int] reads as a number is ASCII. *)
Lemma is_space_ascii c :
  is_space c = true → Nat.ltb (nat_of_ascii c) 128 = true.
Proof. by destruct c as [[] [] [] [] [] [] [] []]. Qed.

Lemma digit_of_ascii c d :
  digit_of c = Some d → Nat.ltb (nat_of_ascii c) 128 = true.
Proof. by destruct c as [[] [] [] [] [] [] [] []]. Qed.

Lemma lstrip_ascii l :
  forallb (λ c, Nat.ltb (nat_of_ascii c) 128) (lstrip l) = true →
  forallb (λ c, Nat.ltb (nat_of_ascii c) 128) l = true.
Proof.
  induction l as [|c l IH]; [done|]. cbn [lstrip].
  destruct (is_space c) eqn:Hc; [|done].
  intros Hl. cbn [forallb]. by rewrite (is_space_ascii _ Hc), IH.
Qed.

Lemma signed_ascii l :
  forallb (λ c, Nat.ltb (nat_of_ascii c) 128) (signed l).2 = true →
  forallb (λ c, Nat.ltb (nat_of_ascii c) 128) l = true.
Proof.
  destruct l as [|c l]; [done|]. cbn [signed].
  destruct (Ascii.eqb_spec c "-") as [->|_]; [done|].
  by destruct (Ascii.eqb_spec c "+") as [->|_].
Qed.

Lemma scan_ascii acc ndigits after_underscore l value ndigits' rest :
  scan acc ndigits after_underscore l = Scanned value ndigits' rest →
  forallb (λ c, Nat.ltb (nat_of_ascii c) 128) rest = true →
  forallb (λ c, Nat.ltb (nat_of_ascii c) 128) l = true.
Proof.
  revert acc ndigits after_underscore.
  induction l as [|c l IH]; intros acc n after; cbn [scan].
  - destruct after; [done|]. by intros [= _ _ <-].
  - destruct (digit_of c) as [d|] eqn:Hd.
    + intros Hscan Hrest. cbn [forallb].
      by rewrite (digit_of_ascii _ _ Hd), (IH _ _ _ Hscan Hrest).
    + destruct (Ascii.eqb_spec c "_") as [->|_].
      * destruct after; [done|]. intros Hscan Hrest. cbn [forallb].
        by rewrite (IH _ _ _ Hscan Hrest).
      * destruct after; [done|]. by intros [= _ _ <-].
Qed.

Lemma parse_int_ascii s n : parse_int s = Some n → is_ascii s = true.
Proof.
  unfold parse_int, is_ascii, int_of_ascii.
  generalize (String.list_ascii_of_string s). intros l.
  destruct (signed (lstrip l)) as [negative l'] eqn:Hsigned.
  destruct (starts_with_underscore l'); [done|].
  destruct (scan 0 0 false l') as [|value ndigits rest] eqn:Hscan; [done|].
  destruct (max_str_digits <? ndigits); [done|].
  destruct (ndigits =? 0); [done|].
  destruct (forallb is_space rest) eqn:Hrest; [|done].
  intros _. apply lstrip_ascii, signed_ascii. rewrite Hsigned. simpl.
  apply (scan_ascii _ _ _ _ _ _ _ Hscan).
  apply forallb_forall. intros c Hc. apply is_space_ascii.
  by apply (proj1 (forallb_forall _ _) Hrest).
Qed.

(** Whatever makes [int] fail, it fails with a [ValueError]. *)
Lemma int_error_class s : exn_class_of (int_error s) = ValueError.
Proof.
  unfold int_error.
  by destruct (int_of_ascii (String.list_ascii_of_string s)).
Qed.

Lemma int_error_not_KeyError s : is_KeyError (int_error s) = false.
Proof. unfold is_KeyError. by rewrite int_error_class. Qed.

Lemma int_error_Exception s : is_Exception (int_error s) = true.
Proof. unfold is_Exception. by rewrite int_error_class. Qed.

(** [int(os.environ[key])], step by step. *)
Lemma environ_int key w :
  bind (environ_get key) int w =
  match environ w !! key with
  | None => (Raise (missing_key key), w)
  | Some s =>
      match parse_int s with
      | Some n => (Return n, w)
      | None => (Raise (int_error s), w)
      end
  end.
Proof.
  unfold bind, environ_get, int.
  destruct (environ w !! key) as [s|]; [|done]. by destruct (parse_int s).
Qed.

Lemma bind_Return {A B} (c : M A) (k : A → M B) w a w' :
  c w = (Return a, w') → bind c k w = k a w'.
Proof. unfold bind. by intros ->. Qed.

Lemma bind_Raise {A B} (c : M A) (k : A → M B) w e w' :
  c w = (Raise e, w') → bind c k w = (Raise e, w').
Proof. unfold bind. by intros ->. Qed.

Lemma environ_int_Return key w s n :
  environ w !! key = Some s → parse_int s = Some n →
  bind (environ_get key) int w = (Return n, w).
Proof. intros Hs Hn. by rewrite environ_int, Hs, Hn. Qed.

Lemma environ_int_missing key w :
  environ w !! key = None →
  bind (environ_get key) int w = (Raise (missing_key key), w).
Proof. intros Hs. by rewrite environ_int, Hs. Qed.

Lemma environ_int_invalid key w s :
  environ w !! key = Some s → parse_int s = None →
  bind (environ_get key) int w = (Raise (int_error s), w).
Proof. intros Hs Hn. by rewrite environ_int, Hs, Hn. Qed.

Lemma environ_get_Return key w s :
  environ w !! key = Some s → environ_get key w = (Return s, w).
Proof. unfold environ_get. by intros ->. Qed.

Lemma environ_get_missing key w :
  environ w !! key = None → environ_get key w = (Raise (missing_key key), w).
Proof. unfold environ_get. by intros ->. Qed.

(** What the handlers of [_try_init_dist] make of the outcome of the
    body. *)
Lemma _try_init_dist_Return library force w w' :
  _try_init_dist_body library w = (Return tt, w') →
  _try_init_dist library force w = (Return tt, w').
Proof. unfold _try_init_dist, try_except. by intros ->. Qed.

Lemma _try_init_dist_Raise library force w e w' :
  _try_init_dist_body library w = (Raise e, w') →
  _try_init_dist library force w =
  if is_KeyError e then
    if force then (Raise (Exn RuntimeError (not_found_message e)), w')
    else (Return tt, w')
  else if is_Exception e then
    if force then (Raise e, w') else (Return tt, w')
  else (Raise e, w').
Proof.
  unfold _try_init_dist, try_except. intros ->.
  by destruct (is_KeyError e), (is_Exception e), force.
Qed.

(** With the five variables present and well-formed the body reaches the
    library: it builds the endpoint, calls [init_process_group] and, when
    that returns, [set_device]. *)
Lemma _try_init_dist_body_reaches_library library w
    rank_s local_rank_s world_size_s host port_s rank local_rank world_size port :
  environ w !! "RANK" = Some rank_s → parse_int rank_s = Some rank →
  environ w !! "LOCAL_RANK" = Some local_rank_s →
  parse_int local_rank_s = Some local_rank →
  environ w !! "WORLD_SIZE" = Some world_size_s →
  parse_int world_size_s = Some world_size →
  environ w !! "MASTER_ADDR" = Some host →
  environ w !! "MASTER_PORT" = Some port_s → parse_int port_s = Some port →
  _try_init_dist_body library w =
  bind (extern library (init_process_group "nccl"
          ("tcp://[" +:+ host +:+ "]:" +:+ str_of_int port) world_size rank))
       (λ _, extern library (set_device local_rank)) w.
Proof.
  intros Hr Hr' Hl Hl' Hw Hw' Hh Hp Hp'. unfold _try_init_dist_body.
  rewrite (bind_Return _ _ _ _ _ (environ_int_Return _ _ _ _ Hr Hr')).
  rewrite (bind_Return _ _ _ _ _ (environ_int_Return _ _ _ _ Hl Hl')).
  rewrite (bind_Return _ _ _ _ _ (environ_int_Return _ _ _ _ Hw Hw')).
  rewrite (bind_Return _ _ _ _ _ (environ_get_Return _ _ _ Hh)).
  by rewrite (bind_Return _ _ _ _ _ (environ_int_Return _ _ _ _ Hp Hp')).
Qed.

(** The external calls of a computation only ever extend the record. *)
Lemma extern_calls library c w :
  calls (extern library c w).2 = calls w ++ [c].
Proof. unfold extern. by destruct (library c w). Qed.

(** The handlers touch nothing: the world after [_try_init_dist] is the
    one its body leaves. *)
Lemma _try_init_dist_world library force w :
  (_try_init_dist library force w).2 = (_try_init_dist_body library w).2.
Proof.
  destruct (_try_init_dist_body library w) as [[[]|e] w'] eqn:Hbody.
  - by rewrite (_try_init_dist_Return _ _ _ _ Hbody).
  - rewrite (_try_init_dist_Raise _ _ _ _ _ Hbody).
    by destruct (is_KeyError e), (is_Exception e), force.
Qed.

(** C2, as the code has it.  When [RANK], [LOCAL_RANK], [WORLD_SIZE],
    [MASTER_ADDR] and [MASTER_PORT] are all present and the four numbers
    parse,
    [_try_init_dist] builds the endpoint [tcp://[host]:port] from
    [MASTER_ADDR] and [MASTER_PORT] and passes it, with the parsed
    [world_size] and [rank], to [init_process_group]; that is the first
    call it makes, and once it has returned the next and last call selects
    the device numbered by the parsed [LOCAL_RANK].  When both calls return,
    so does [_try_init_dist]. *)
Theorem _try_init_dist_forwards_endpoint library force w
    rank_s local_rank_s world_size_s host port_s rank local_rank world_size port :
  environ w !! "RANK" = Some rank_s → parse_int rank_s = Some rank →
  environ w !! "LOCAL_RANK" = Some local_rank_s →
  parse_int local_rank_s = Some local_rank →
  environ w !! "WORLD_SIZE" = Some world_size_s →
  parse_int world_size_s = Some world_size →
  environ w !! "MASTER_ADDR" = Some host →
  environ w !! "MASTER_PORT" = Some port_s → parse_int port_s = Some port →
  let init := init_process_group "nccl"
                ("tcp://[" +:+ host +:+ "]:" +:+ str_of_int port)
                world_size rank in
  calls (_try_init_dist library force w).2 =
    calls w ++ init :: match library init w with
                       | None => [set_device local_rank]
                       | Some _ => []
                       end ∧
  (library init w = None →
   library (set_device local_rank) (record_call init w) = None →
   _try_init_dist library force w =
   (Return tt, record_call (set_device local_rank) (record_call init w))).
Proof.
  intros Hr Hr' Hl Hl' Hw Hw' Hh Hp Hp' init.
  pose proof (_try_init_dist_body_reaches_library library w _ _ _ _ _ _ _ _ _
                Hr Hr' Hl Hl' Hw Hw' Hh Hp Hp') as Hbody.
  fold init in Hbody. split.
  - rewrite _try_init_dist_world, Hbody. unfold bind, extern at 1.
    destruct (library init w) as [e|]; simpl; [done|].
    rewrite extern_calls. simpl. by rewrite <- app_assoc.
  - intros Hinit Hdev. apply _try_init_dist_Return. rewrite Hbody.
    unfold bind, extern. by rewrite Hinit, Hdev.
Qed.

Lemma _try_init_dist_forwards_endpoint_witness :
  calls (_try_init_dist library_ok true launched_world).2 =
    [init_process_group "nccl" "tcp://[10.0.0.7]:29500" 4 1; set_device 1] ∧
  _try_init_dist library_ok true launched_world =
    (Return tt,
     record_call (set_device 1)
       (record_call (init_process_group "nccl" "tcp://[10.0.0.7]:29500" 4 1)
          launched_world)).
Proof.
  destruct (_try_init_dist_forwards_endpoint library_ok true launched_world
              "1" "1" "4" "10.0.0.7" "29500" 1 1 4 29500)
    as [Hcalls Hreturn]; [reflexivity..|].
  split; [exact Hcalls|]. apply Hreturn; reflexivity.
Defined.

(** C2 as stated fails: in [launched_world] the five variables are
    present and the four numbers parse, but when the initialization of the
    process group raises, with or without [force], the device is not
    selected. *)
Lemma _try_init_dist_forwards_endpoint_counterexample :
  (environ launched_world !! "RANK" = Some "1" ∧ parse_int "1" = Some 1) ∧
  (environ launched_world !! "LOCAL_RANK" = Some "1") ∧
  (environ launched_world !! "WORLD_SIZE" = Some "4" ∧ parse_int "4" = Some 4) ∧
  (environ launched_world !! "MASTER_ADDR" = Some "10.0.0.7") ∧
  (environ launched_world !! "MASTER_PORT" = Some "29500" ∧
   parse_int "29500" = Some 29500) ∧
  calls (_try_init_dist library_without_nccl false launched_world).2 =
    [init_process_group "nccl" "tcp://[10.0.0.7]:29500" 4 1] ∧
  calls (_try_init_dist library_without_nccl true launched_world).2 =
    [init_process_group "nccl" "tcp://[10.0.0.7]:29500" 4 1] ∧
  set_device 1 ∉ calls (_try_init_dist library_without_nccl true launched_world).2.
Proof.
  split_and!; try reflexivity.
  intros Hin. vm_compute in Hin.
  apply list_elem_of_singleton in Hin. discriminate.
Qed.

Ltac required :=
  unfold required_variables;
  repeat first [apply list_elem_of_here | apply list_elem_of_further].

(** One [int(os.environ[key])] of the body: either it stops the body with
    its exception, or the body goes on with the number. *)
Ltac read_variable w key :=
  let s := fresh "s" in
  let n := fresh "n" in
  let Hs := fresh "Hs" in
  let Hn := fresh "Hn" in
  destruct (environ w !! key) as [s|] eqn:Hs;
  [ destruct (parse_int s) as [n|] eqn:Hn;
    [ rewrite (bind_Return _ _ _ _ _ (environ_int_Return _ _ _ _ Hs Hn))
    | rewrite (bind_Raise _ _ _ _ _ (environ_int_invalid _ _ _ Hs Hn)) ]
  | rewrite (bind_Raise _ _ _ _ _ (environ_int_missing _ _ Hs)) ].

(** When a variable is missing the body stops before it reaches the
    library, on the [KeyError] of a missing variable or on the
    [ValueError] of a malformed one, and leaves the world as it was. *)
Lemma _try_init_dist_body_stops library w v :
  v ∈ required_variables → environ w !! v = None →
  ∃ e, _try_init_dist_body library w = (Raise e, w) ∧
       ((∃ u, u ∈ required_variables ∧ environ w !! u = None ∧
              e = missing_key u) ∨
        (∃ u s, environ w !! u = Some s ∧ parse_int s = None ∧
                e = int_error s)).
Proof.
  intros Hv Hmissing. unfold _try_init_dist_body.
  read_variable w "RANK";
    [|eexists; split; [done|right; eauto]
     |eexists; split; [done|left; eexists; split_and!; [|done..]; required]].
  read_variable w "LOCAL_RANK";
    [|eexists; split; [done|right; eauto]
     |eexists; split; [done|left; eexists; split_and!; [|done..]; required]].
  read_variable w "WORLD_SIZE";
    [|eexists; split; [done|right; eauto]
     |eexists; split; [done|left; eexists; split_and!; [|done..]; required]].
  destruct (environ w !! "MASTER_ADDR") as [host|] eqn:Hhost;
    [ rewrite (bind_Return _ _ _ _ _ (environ_get_Return _ _ _ Hhost))
    | rewrite (bind_Raise _ _ _ _ _ (environ_get_missing _ _ Hhost));
      eexists; split; [done|left; eexists; split_and!; [|done..]; required] ].
  read_variable w "MASTER_PORT";
    [|eexists; split; [done|right; eauto]
     |eexists; split; [done|left; eexists; split_and!; [|done..]; required]].
  exfalso. unfold required_variables in Hv.
  repeat (apply elem_of_cons in Hv as [->|Hv]; [congruence|]).
  by apply elem_of_nil in Hv.
Qed.

(** C3. When at least one of the five variables is missing,
    [_try_init_dist(force=False)], and so [setup_distributed], returns
    without raising; nothing was called and nothing has changed. *)
Theorem _try_init_dist_missing_unforced library w v :
  v ∈ required_variables → environ w !! v = None →
  _try_init_dist library false w = (Return tt, w) ∧
  setup_distributed library w = (Return tt, w).
Proof.
  intros Hv Hmissing.
  destruct (_try_init_dist_body_stops library w v Hv Hmissing)
    as (e & Hbody & [(u & _ & _ & ->)|(u & s & _ & _ & ->)]);
    unfold setup_distributed;
    rewrite (_try_init_dist_Raise _ _ _ _ _ Hbody);
    by rewrite ?int_error_not_KeyError, ?int_error_Exception.
Qed.

Lemma _try_init_dist_missing_unforced_witness :
  _try_init_dist library_ok false bare_world = (Return tt, bare_world) ∧
  setup_distributed library_ok bare_world = (Return tt, bare_world).
Proof.
  apply (_try_init_dist_missing_unforced library_ok bare_world "MASTER_ADDR").
  - required.
  - reflexivity.
Defined.

(** The body stops on the [KeyError] of the first missing variable when
    the variables read before it are well-formed. *)
Lemma _try_init_dist_body_first_missing library w before v after :
  required_variables = before ++ v :: after →
  (∀ u, u ∈ before →
     ∃ s, environ w !! u = Some s ∧
          (converted u = true → is_Some (parse_int s))) →
  environ w !! v = None →
  _try_init_dist_body library w = (Raise (missing_key v), w).
Proof.
  intros Hsplit Hbefore Hv. unfold _try_init_dist_body.
  assert (∀ u, u ∈ before → converted u = true →
            ∃ s n, environ w !! u = Some s ∧ parse_int s = Some n) as Hint.
  { intros u Hu Hc. destruct (Hbefore u Hu) as (s & Hs & Hp).
    destruct (Hp Hc) as [n Hn]. eauto. }
  assert (∀ u, u ∈ before → ∃ s, environ w !! u = Some s) as Hstr.
  { intros u Hu. destruct (Hbefore u Hu) as (s & Hs & _). eauto. }
  clear Hbefore. unfold required_variables in Hsplit.
  destruct before as [|b0 before]; simplify_eq/=.
  { by rewrite (bind_Raise _ _ _ _ _ (environ_int_missing _ _ Hv)). }
  destruct (Hint "RANK") as (s0 & n0 & Hs0 & Hn0);
    [apply list_elem_of_here|done|].
  rewrite (bind_Return _ _ _ _ _ (environ_int_Return _ _ _ _ Hs0 Hn0)).
  destruct before as [|b1 before]; simplify_eq/=.
  { by rewrite (bind_Raise _ _ _ _ _ (environ_int_missing _ _ Hv)). }
  destruct (Hint "LOCAL_RANK") as (s1 & n1 & Hs1 & Hn1);
    [required|done|].
  rewrite (bind_Return _ _ _ _ _ (environ_int_Return _ _ _ _ Hs1 Hn1)).
  destruct before as [|b2 before]; simplify_eq/=.
  { by rewrite (bind_Raise _ _ _ _ _ (environ_int_missing _ _ Hv)). }
  destruct (Hint "WORLD_SIZE") as (s2 & n2 & Hs2 & Hn2);
    [required|done|].
  rewrite (bind_Return _ _ _ _ _ (environ_int_Return _ _ _ _ Hs2 Hn2)).
  destruct before as [|b3 before]; simplify_eq/=.
  { by rewrite (bind_Raise _ _ _ _ _ (environ_get_missing _ _ Hv)). }
  destruct (Hstr "MASTER_ADDR") as (s3 & Hs3); [required|].
  rewrite (bind_Return _ _ _ _ _ (environ_get_Return _ _ _ Hs3)).
  destruct before as [|b4 before]; simplify_eq/=.
  { by rewrite (bind_Raise _ _ _ _ _ (environ_int_missing _ _ Hv)). }
  by destruct before.
Qed.

(** The message of the [RuntimeError] for a missing variable. *)
Lemma not_found_message_missing_key v :
  v ∈ required_variables →
  not_found_message (missing_key v) =
  "Could not find '" +:+ v +:+
  "' in the torch environment, visit https://www.colossalai.org/ for more information on launching with torch".
Proof.
  intros Hv. unfold required_variables in Hv.
  repeat (apply elem_of_cons in Hv as [->|Hv]; [reflexivity|]).
  by apply elem_of_nil in Hv.
Qed.

(** C4, as the code has it.  When a variable is missing and the variables
    read before the first missing one (in the order [RANK], [LOCAL_RANK],
    [WORLD_SIZE], [MASTER_ADDR], [MASTER_PORT]) are well-formed,
    [_try_init_dist(force=True)] raises a [RuntimeError] whose message
    names that first missing variable; nothing was called. *)
Theorem _try_init_dist_missing_forced library w before v after :
  required_variables = before ++ v :: after →
  (∀ u, u ∈ before →
     ∃ s, environ w !! u = Some s ∧
          (converted u = true → is_Some (parse_int s))) →
  environ w !! v = None →
  _try_init_dist library true w =
  (Raise (Exn RuntimeError
            ("Could not find '" +:+ v +:+
             "' in the torch environment, visit https://www.colossalai.org/ for more information on launching with torch")),
   w).
Proof.
  intros Hsplit Hbefore Hv.
  rewrite (_try_init_dist_Raise _ _ _ _ _
             (_try_init_dist_body_first_missing library w _ _ _
                Hsplit Hbefore Hv)).
  simpl. rewrite not_found_message_missing_key; [done|].
  rewrite Hsplit. apply elem_of_app. right. apply list_elem_of_here.
Qed.

Lemma _try_init_dist_missing_forced_witness :
  _try_init_dist library_ok true bare_world =
  (Raise (Exn RuntimeError
            "Could not find 'LOCAL_RANK' in the torch environment, visit https://www.colossalai.org/ for more information on launching with torch"),
   bare_world).
Proof.
  apply (_try_init_dist_missing_forced library_ok bare_world
           ["RANK"] "LOCAL_RANK" ["WORLD_SIZE"; "MASTER_ADDR"; "MASTER_PORT"]).
  - reflexivity.
  - intros u Hu. apply list_elem_of_singleton in Hu as ->.
    exists "0". split; [reflexivity|]. intros _. by exists 0.
  - reflexivity.
Defined.

(** C4 as stated fails: with [RANK=abc] and the other four variables
    missing, [int] fails on the rank before any missing variable is looked
    up, and [_try_init_dist(force=True)] raises that [ValueError], not a
    [RuntimeError]. *)
Lemma _try_init_dist_missing_forced_counterexample :
  "LOCAL_RANK" ∈ required_variables ∧
  environ malformed_world !! "LOCAL_RANK" = None ∧
  _try_init_dist library_ok true malformed_world =
    (Raise (Exn ValueError "invalid literal for int() with base 10: 'abc'"),
     malformed_world) ∧
  ValueError ≠ RuntimeError.
Proof. split_and!; [required|reflexivity|reflexivity|discriminate]. Qed.

(** A value that [int] rejects stops the body on the [ValueError] of
    [int]; shown for the first variable. *)
Lemma _try_init_dist_body_invalid_rank library w s :
  environ w !! "RANK" = Some s → parse_int s = None →
  _try_init_dist_body library w = (Raise (int_error s), w).
Proof.
  intros Hs Hn. unfold _try_init_dist_body.
  by rewrite (bind_Raise _ _ _ _ _ (environ_int_invalid _ _ _ Hs Hn)).
Qed.

(** C5, as the code has it.  An exception that leaves the [try] body of
    [_try_init_dist] and is an [Exception] but not a [KeyError] (the
    [ValueError] of a malformed number, or such a failure of a library
    call) is swallowed when [force] is false and raised again, the very
    same exception, when [force] is true; in both cases the world is the
    one the body left. *)
Theorem _try_init_dist_other_exception library w e w' :
  _try_init_dist_body library w = (Raise e, w') →
  is_KeyError e = false → is_Exception e = true →
  _try_init_dist library false w = (Return tt, w') ∧
  _try_init_dist library true w = (Raise e, w').
Proof.
  intros Hbody Hkey Hexn.
  rewrite !(_try_init_dist_Raise _ _ _ _ _ Hbody). by rewrite Hkey, Hexn.
Qed.

Lemma _try_init_dist_other_exception_witness :
  _try_init_dist library_ok false malformed_world = (Return tt, malformed_world) ∧
  _try_init_dist library_ok true malformed_world =
    (Raise (invalid_literal "abc"), malformed_world).
Proof.
  apply (_try_init_dist_other_exception library_ok malformed_world
           (invalid_literal "abc") malformed_world).
  - exact (_try_init_dist_body_invalid_rank library_ok malformed_world "abc"
             eq_refl eq_refl).
  - reflexivity.
  - reflexivity.
Defined.

(** C5 as stated fails.  In [launched_world] no variable is missing, yet a
    [KeyError] out of the library call is taken by the first handler and,
    with [force] true, replaced by a [RuntimeError]; and an exception that
    is not an [Exception] passes both handlers even when [force] is
    false. *)
Lemma _try_init_dist_other_exception_counterexample :
  Forall (λ v, is_Some (environ launched_world !! v)) required_variables ∧
  (_try_init_dist_body library_without_backend launched_world).1 =
    Raise (Exn KeyError "'nccl'") ∧
  (_try_init_dist library_without_backend true launched_world).1 =
    Raise (Exn RuntimeError
             "Could not find 'nccl' in the torch environment, visit https://www.colossalai.org/ for more information on launching with torch") ∧
  (_try_init_dist_body library_interrupted launched_world).1 =
    Raise (Exn (OtherBaseException "KeyboardInterrupt") "") ∧
  (_try_init_dist library_interrupted false launched_world).1 =
    Raise (Exn (OtherBaseException "KeyboardInterrupt") "").
Proof.
  split_and!; [|reflexivity..].
  unfold required_variables. repeat constructor; by eexists.
Qed.

(** ** Sharding the state dict *)

Lemma nbytes_nonneg t : 0 ≤ nbytes t.
Proof. unfold nbytes, numel. lia. Qed.

Lemma total_bytes_app d1 d2 :
  total_bytes (d1 ++ d2) = total_bytes d1 + total_bytes d2.
Proof.
  unfold total_bytes. induction d1 as [|p d1 IH]; simpl; [done|].
  rewrite IH. lia.
Qed.

Lemma total_bytes_nonneg d : 0 ≤ total_bytes d.
Proof.
  unfold total_bytes. induction d as [|p d IH]; simpl; [done|].
  pose proof (nbytes_nonneg p.2). lia.
Qed.

Lemma total_bytes_zero d :
  total_bytes d ≤ 0 → Forall (λ p, nbytes p.2 = 0) d.
Proof.
  induction d as [|p d IH]; intros Hd; [constructor|].
  change (total_bytes (p :: d)) with (nbytes p.2 + total_bytes d) in Hd.
  pose proof (nbytes_nonneg p.2). pose proof (total_bytes_nonneg d).
  constructor; [lia|]. apply IH. lia.
Qed.

Lemma state_dict_fold model w :
  state_dict model w =
  (Return (fold_left (state_step w) (state_entries model) od_empty), w).
Proof. apply for_each_reads. by intros d [name r]. Qed.

Lemma state_fold_keys_NoDup w l d :
  NoDup (od_keys d) → NoDup (od_keys (fold_left (state_step w) l d)).
Proof.
  revert d. induction l as [|p l IH]; intros d Hd; [done|].
  simpl. apply IH. by apply od_set_NoDup.
Qed.

Lemma selected_state_dict_NoDup w config model :
  NoDup (od_keys (selected_state_dict w config model)).
Proof.
  unfold selected_state_dict. destruct (requires_grad_only config).
  - apply grad_fold_keys_NoDup, NoDup_nil_2.
  - apply state_fold_keys_NoDup, NoDup_nil_2.
Qed.

(** The generator reads the model and yields; it changes nothing. *)
Lemma get_model_state_dict_shard_eval unwrap_model model config w :
  get_model_state_dict_shard unwrap_model model config w =
  (Return
     match config !! "shard_size" with
     | Some shard_size =>
         shard_loop (as_int shard_size)
           (selected_state_dict w config (unwrap_model model)) 0 od_empty
     | None => [selected_state_dict w config (unwrap_model model)]
     end, w).
Proof.
  unfold get_model_state_dict_shard, selected_state_dict, requires_grad_only.
  destruct (match config !! "requires_grad_only" with
            | Some v => eq_True v | None => false end).
  - rewrite (bind_Return _ _ _ _ _ (get_grad_required_state_dict_fold _ w)).
    by destruct (config !! "shard_size").
  - rewrite (bind_Return _ _ _ _ _ (state_dict_fold _ w)).
    by destruct (config !! "shard_size").
Qed.

(** No dictionary the loop yields is empty: one is yielded either right
    after an insertion or, at the end, when bytes have been counted since
    the last one. *)
Lemma shard_loop_nonempty shard_size items accumulate_size state_dict_shard :
  (0 < accumulate_size → state_dict_shard ≠ []) →
  Forall (λ chunk, chunk ≠ [])
    (shard_loop shard_size items accumulate_size state_dict_shard).
Proof.
  revert accumulate_size state_dict_shard.
  induction items as [|[name param] items IH]; intros acc shard Hinv; simpl.
  - destruct (0 <? acc) eqn:Hacc; [|constructor].
    apply Z.ltb_lt in Hacc. constructor; [by apply Hinv|constructor].
  - destruct (shard_size <=? acc + nbytes param).
    + constructor; [apply od_set_not_empty|]. apply IH. unfold od_empty. lia.
    + apply IH. intros _. apply od_set_not_empty.
Qed.

(** While the names are distinct, the counter is the size of the
    dictionary being filled, so what the loop yields is a run of
    dictionaries that reached [shard_size], then at most one remainder. *)
Lemma shard_loop_flushed shard_size items accumulate_size state_dict_shard :
  NoDup (od_keys state_dict_shard ++ items.*1) →
  accumulate_size = total_bytes state_dict_shard →
  ∃ flushed remainder,
    shard_loop shard_size items accumulate_size state_dict_shard
      = flushed ++ remainder ∧
    Forall (λ chunk, shard_size ≤ total_bytes chunk) flushed ∧
    (length remainder ≤ 1)%nat.
Proof.
  revert accumulate_size state_dict_shard.
  induction items as [|[name param] items IH]; intros acc shard Hnd ->; simpl.
  - exists [], (if 0 <? total_bytes shard then [shard] else []).
    split_and!; [done|constructor|]. destruct (0 <? total_bytes shard); simpl; lia.
  - apply NoDup_app in Hnd as (Hshard & Hdisj & Hitems).
    apply NoDup_cons in Hitems as [Hname Hitems].
    assert (name ∉ od_keys shard) as Hfresh.
    { intros Hin. apply (Hdisj _ Hin), list_elem_of_here. }
    rewrite (od_set_fresh _ _ _ Hfresh).
    assert (total_bytes shard + nbytes param
            = total_bytes (shard ++ [(name, param)])) as Hsize.
    { rewrite total_bytes_app. unfold total_bytes. simpl. lia. }
    destruct (shard_size <=? total_bytes shard + nbytes param) eqn:Hflush.
    + apply Z.leb_le in Hflush.
      destruct (IH 0 od_empty) as (flushed & remainder & Heq & Hall & Hlen);
        [done|done|].
      exists ((shard ++ [(name, param)]) :: flushed), remainder.
      split_and!; [by rewrite Heq| |done].
      constructor; [lia|done].
    + apply (IH _ (shard ++ [(name, param)])); [|done].
      unfold od_keys. rewrite fmap_app, <- app_assoc. simpl.
      apply NoDup_app. split_and!; [done| |by apply NoDup_cons].
      intros x Hx Hx'. by apply (Hdisj x).
Qed.

(** What the loop yields, put end to end, is the dictionary it was given
    but for a last run of entries that hold no bytes: when the loop ends
    on such entries, the test [accumulate_size > 0] takes the dictionary
    that holds them for an empty one. *)
Lemma shard_loop_concat shard_size items accumulate_size state_dict_shard :
  NoDup (od_keys state_dict_shard ++ items.*1) →
  accumulate_size = total_bytes state_dict_shard →
  ∃ dropped,
    concat (shard_loop shard_size items accumulate_size state_dict_shard)
      ++ dropped = state_dict_shard ++ items ∧
    Forall (λ p, nbytes p.2 = 0) dropped.
Proof.
  revert accumulate_size state_dict_shard.
  induction items as [|[name param] items IH]; intros acc shard Hnd ->; simpl.
  - destruct (0 <? total_bytes shard) eqn:Hacc.
    + exists []. simpl. by rewrite !app_nil_r.
    + apply Z.ltb_ge in Hacc. exists shard. simpl.
      split; [by rewrite app_nil_r|]. by apply total_bytes_zero.
  - apply NoDup_app in Hnd as (Hshard & Hdisj & Hitems).
    apply NoDup_cons in Hitems as [Hname Hitems].
    assert (name ∉ od_keys shard) as Hfresh.
    { intros Hin. apply (Hdisj _ Hin), list_elem_of_here. }
    rewrite (od_set_fresh _ _ _ Hfresh).
    assert (total_bytes shard + nbytes param
            = total_bytes (shard ++ [(name, param)])) as Hsize.
    { rewrite total_bytes_app. unfold total_bytes. simpl. lia. }
    destruct (shard_size <=? total_bytes shard + nbytes param).
    + destruct (IH 0 od_empty) as (dropped & Heq & Hzero); [done|done|].
      exists dropped. split; [|done]. simpl in *.
      by rewrite <- !app_assoc, Heq.
    + destruct (IH (total_bytes shard + nbytes param)
                  (shard ++ [(name, param)])) as (dropped & Heq & Hzero);
        [|done|].
      * unfold od_keys. rewrite fmap_app, <- app_assoc. simpl.
        apply NoDup_app. split_and!; [done| |by apply NoDup_cons].
        intros x Hx Hx'. by apply (Hdisj x).
      * exists dropped. split; [|done]. by rewrite Heq, <- app_assoc.
Qed.

(** When every tensor holds bytes nothing is lost: the dictionaries
    yielded, put end to end, are the state dict. *)
Lemma shard_loop_concat_positive shard_size (items : OrderedDict Tensor) :
  NoDup (od_keys items) → Forall (λ p, 0 < nbytes p.2) items →
  concat (shard_loop shard_size items 0 od_empty) = items.
Proof.
  intros Hnd Hpos.
  destruct (shard_loop_concat shard_size items 0 od_empty)
    as (dropped & Heq & Hzero); [done|done|].
  destruct dropped as [|p dropped]; [by rewrite app_nil_r in Heq|].
  exfalso. apply Forall_cons in Hzero as [Hp _].
  assert (p ∈ items) as Hin.
  { simpl in Heq. rewrite <- Heq. apply elem_of_app. right.
    apply list_elem_of_here. }
  rewrite Forall_forall in Hpos. specialize (Hpos p Hin). lia.
Qed.

(** C9. With [shard_size] in the configuration, no dictionary that
    [get_model_state_dict_shard] yields is empty, every one but the last
    holds at least [shard_size] bytes, and for an empty state dict nothing
    is yielded; without [shard_size] exactly one dictionary is yielded,
    the state dict itself. *)
Theorem get_model_state_dict_shard_chunks unwrap_model model config w :
  ∃ chunks,
    get_model_state_dict_shard unwrap_model model config w = (Return chunks, w) ∧
    match config !! "shard_size" with
    | Some shard_size =>
        Forall (λ chunk, chunk ≠ []) chunks ∧
        (∀ i chunk, chunks !! i = Some chunk → (S i < length chunks)%nat →
                    as_int shard_size ≤ total_bytes chunk) ∧
        (selected_state_dict w config (unwrap_model model) = [] → chunks = [])
    | None => chunks = [selected_state_dict w config (unwrap_model model)]
    end.
Proof.
  eexists. split; [apply get_model_state_dict_shard_eval|].
  destruct (config !! "shard_size") as [shard_size|]; [|done].
  split_and!.
  - apply shard_loop_nonempty. lia.
  - intros i chunk Hi Hlast.
    destruct (shard_loop_flushed (as_int shard_size)
                (selected_state_dict w config (unwrap_model model)) 0 od_empty)
      as (flushed & remainder & Heq & Hall & Hlen);
      [apply selected_state_dict_NoDup|done|].
    rewrite Heq in Hi, Hlast. rewrite length_app in Hlast.
    rewrite lookup_app_l in Hi by lia.
    by apply (Forall_lookup_1 _ _ _ _ Hall Hi).
  - by intros ->.
Qed.

Lemma get_model_state_dict_shard_chunks_witness :
  ∃ chunks,
    get_model_state_dict_shard id example_model
      {["shard_size" := VInt 100]} example_world
      = (Return chunks, example_world) ∧
    Forall (λ chunk, chunk ≠ []) chunks ∧
    (∀ i chunk, chunks !! i = Some chunk → (S i < length chunks)%nat →
                100 ≤ total_bytes chunk) ∧
    (selected_state_dict example_world {["shard_size" := VInt 100]}
       example_model = [] → chunks = []).
Proof.
  exact (get_model_state_dict_shard_chunks id example_model
           {["shard_size" := VInt 100]} example_world).
Defined.

(** The run behind the witness: 128 bytes reach the threshold of 100 at
    once, the 80 bytes that follow do not and are yielded at the end. *)
Example get_model_state_dict_shard_example :
  (get_model_state_dict_shard id example_model
     {["shard_size" := VInt 100]} example_world).1 =
  Return [ [("wte.weight", detach (example_tensor 0%N))];
           [("h.0.weight", detach (example_tensor 1%N));
            ("h.0.bias", detach (example_tensor 2%N));
            ("h.0.mask", detach (example_tensor 3%N))] ].
Proof. reflexivity. Qed.

(** C6, where the code departs from it.  The state dict of
    [example_model] ends on a buffer without elements.  With a
    [shard_size] of 16 the three tensors before it are yielded one by one,
    each reaching the threshold; the buffer is then put into a new
    dictionary that counts no bytes, and the last test does not yield it:
    what is yielded, put end to end, is not the state dict. *)
Theorem get_model_state_dict_shard_loses_empty_tail :
  (state_dict example_model example_world).1 =
    Return [ ("wte.weight", detach (example_tensor 0%N));
             ("h.0.weight", detach (example_tensor 1%N));
             ("h.0.bias", detach (example_tensor 2%N));
             ("h.0.mask", detach (example_tensor 3%N)) ] ∧
  (get_model_state_dict_shard id example_model
     {["shard_size" := VInt 16]} example_world).1 =
    Return [ [("wte.weight", detach (example_tensor 0%N))];
             [("h.0.weight", detach (example_tensor 1%N))];
             [("h.0.bias", detach (example_tensor 2%N))] ] ∧
  (get_model_state_dict_shard id example_model ∅ example_world).1 =
    Return [ [ ("wte.weight", detach (example_tensor 0%N));
               ("h.0.weight", detach (example_tensor 1%N));
               ("h.0.bias", detach (example_tensor 2%N));
               ("h.0.mask", detach (example_tensor 3%N)) ] ].
Proof. split_and!; reflexivity. Qed.

(** C8. The two operations that read the parameters of a model leave the
    world as it was: every tensor object, and with it the names, the
    gradient flags and the values of the parameters of the model, is the
    same after the call as before; and nothing is kept from one call to
    the next, a second call returns what the first returned. *)
Theorem state_dict_readers_change_nothing unwrap_model model config w :
  (get_grad_required_state_dict model w).2 = w ∧
  (get_model_state_dict_shard unwrap_model model config w).2 = w ∧
  get_grad_required_state_dict model (get_grad_required_state_dict model w).2
    = get_grad_required_state_dict model w ∧
  get_model_state_dict_shard unwrap_model model config
      (get_model_state_dict_shard unwrap_model model config w).2
    = get_model_state_dict_shard unwrap_model model config w.
Proof.
  assert ((get_grad_required_state_dict model w).2 = w) as Hgrad.
  { by rewrite get_grad_required_state_dict_fold. }
  assert ((get_model_state_dict_shard unwrap_model model config w).2 = w)
    as Hshard.
  { by rewrite get_model_state_dict_shard_eval. }
  split_and!; [done|done|by rewrite Hgrad|by rewrite Hshard].
Qed.

(** ** Saving a checkpoint *)

Lemma save_pretrained_not_pretrained unwrap_model library model path
    only_rank0 tokenizer w :
  is_PreTrainedModel (unwrap_model model) = false →
  save_pretrained unwrap_model library model path only_rank0 tokenizer w =
  (Raise (Exn AssertionError ""), w).
Proof. unfold save_pretrained, bind, assertion. by intros ->. Qed.

(** C7, as the code has it.  When the unwrapped model is a
    [PreTrainedModel], [save_pretrained] serializes it to the path it is
    given, that being its first call; once that call has returned, the
    tokenizer is serialized to the same path if and only if one was
    given, and nothing else is called.  When these calls return, so does
    [save_pretrained]. *)
Theorem save_pretrained_serializes unwrap_model library model path
    only_rank0 tokenizer w :
  is_PreTrainedModel (unwrap_model model) = true →
  let save := model_save_pretrained (unwrap_model model) path in
  calls (save_pretrained unwrap_model library model path only_rank0
           tokenizer w).2 =
    calls w ++ save ::
      match library save w, tokenizer with
      | None, Some tokenizer => [tokenizer_save_pretrained tokenizer path]
      | _, _ => []
      end ∧
  (library save w = None →
   match tokenizer with
   | Some tokenizer =>
       library (tokenizer_save_pretrained tokenizer path) (record_call save w)
         = None
   | None => True
   end →
   (save_pretrained unwrap_model library model path only_rank0
      tokenizer w).1 = Return tt).
Proof.
  intros Hpre save. unfold save_pretrained, bind, assertion. rewrite Hpre.
  fold save. unfold ret at 1, extern at 1.
  destruct (library save w) as [e|] eqn:Hsave; simpl.
  - split; [done|]. discriminate.
  - destruct tokenizer as [tokenizer|]; simpl.
    + rewrite extern_calls. simpl. rewrite <- app_assoc. split; [done|].
      intros _ Htok. unfold extern. by rewrite Hsave, Htok.
    + split; [done|]. intros _ _. unfold extern. by rewrite Hsave.
Qed.

Lemma save_pretrained_serializes_witness :
  calls (save_pretrained id library_ok example_model "ckpt" true (Some 7%N)
           example_world).2 =
    [model_save_pretrained example_model "ckpt";
     tokenizer_save_pretrained 7%N "ckpt"] ∧
  (save_pretrained id library_ok example_model "ckpt" true (Some 7%N)
     example_world).1 = Return tt.
Proof.
  destruct (save_pretrained_serializes id library_ok example_model "ckpt"
              true (Some 7%N) example_world) as [Hcalls Hreturn];
    [reflexivity|].
  split; [exact Hcalls|]. apply Hreturn; reflexivity.
Defined.

(** C7 as stated fails: handed a module that is not a [PreTrainedModel],
    [save_pretrained] stops on its assertion and serializes neither the
    model nor the tokenizer; and when the serialization of the model
    raises, the tokenizer that was given is not serialized. *)
Lemma save_pretrained_serializes_counterexample :
  save_pretrained id library_ok plain_module "ckpt" true (Some 7%N)
    example_world =
  (Raise (Exn AssertionError ""), example_world) ∧
  calls example_world = [] ∧
  calls (save_pretrained id library_disk_full example_model "ckpt" true
           (Some 7%N) example_world).2 =
    [model_save_pretrained example_model "ckpt"].
Proof. split_and!; reflexivity. Qed.

(** C10. [only_rank0] has no effect on [save_pretrained]: two runs that
    differ in it alone make the same calls, end in the same world and give
    the same result. *)
Theorem save_pretrained_ignores_only_rank0 unwrap_model library model path
    tokenizer w (only_rank0 only_rank0' : bool) :
  save_pretrained unwrap_model library model path only_rank0 tokenizer w =
  save_pretrained unwrap_model library model path only_rank0' tokenizer w.
Proof. reflexivity. Qed.

(** * Further properties of the code *)

(** ** The gradient filter, whatever the names *)

Lemma od_set_elem {A} (k k' : string) (v v' : A) (d : OrderedDict A) :
  (k', v') ∈ od_set k v d → (k', v') = (k, v) ∨ (k', v') ∈ d.
Proof.
  induction d as [|[k0 v0] d IH]; simpl.
  - intros Hin%list_elem_of_singleton. by left.
  - destruct (decide (k0 = k)) as [->|Hne]; intros Hin.
    + apply elem_of_cons in Hin as [Heq|Hin]; [by left|].
      right. by apply list_elem_of_further.
    + apply elem_of_cons in Hin as [Heq|Hin].
      * right. rewrite Heq. apply list_elem_of_here.
      * destruct (IH Hin) as [?|?]; [by left|].
        right. by apply list_elem_of_further.
Qed.

Lemma grad_fold_values w l d name t :
  (name, t) ∈ fold_left (grad_step w) l d →
  (name, t) ∈ d ∨
  ∃ r, (name, r) ∈ l ∧ requires_grad (tensors w r) = true ∧
       t = detach (tensors w r).
Proof.
  revert d. induction l as [|[n r] l IH]; intros d Hin; [by left|].
  simpl in Hin. destruct (IH _ Hin) as [Hd|(r' & Hr' & Hg & ->)].
  - unfold grad_step in Hd. simpl in Hd.
    destruct (requires_grad (tensors w r)) eqn:Hg; [|by left].
    apply od_set_elem in Hd as [Heq|Hd]; [|by left].
    simplify_eq. right. exists r. split_and!; [apply list_elem_of_here|done..].
  - right. exists r'. split_and!; [by apply list_elem_of_further|done..].
Qed.

(** X1. Whatever names [named_parameters()] gives, repeated ones
    included, every key of the result of [get_grad_required_state_dict]
    occurs once, and the keys are the names under which some parameter
    requires a gradient. *)
Theorem get_grad_required_state_dict_keys model w :
  ∃ d : OrderedDict Tensor,
    get_grad_required_state_dict model w = (Return d, w) ∧
    NoDup (od_keys d) ∧
    ∀ name, name ∈ od_keys d ↔
      ∃ r, (name, r) ∈ named_parameters model ∧
           requires_grad (tensors w r) = true.
Proof.
  eexists. split; [apply get_grad_required_state_dict_fold|]. split.
  - apply grad_fold_keys_NoDup, NoDup_nil_2.
  - intros name. rewrite grad_fold_keys. split; [|by right].
    intros [Hin|?]; [|done]. by apply elem_of_nil in Hin.
Qed.

(** X2. Every tensor in the result of [get_grad_required_state_dict] is
    the detached view of a parameter of that name that requires a
    gradient: it is on the storage of that parameter, and it does not
    require a gradient itself. *)
Theorem get_grad_required_state_dict_values model w d name t :
  get_grad_required_state_dict model w = (Return d, w) →
  (name, t) ∈ d →
  requires_grad t = false ∧
  ∃ r, (name, r) ∈ named_parameters model ∧
       requires_grad (tensors w r) = true ∧
       t = detach (tensors w r) ∧
       storage t = storage (tensors w r).
Proof.
  rewrite get_grad_required_state_dict_fold. intros [= <-] Hin.
  apply grad_fold_values in Hin as [Hin|(r & Hr & Hg & ->)].
  - by apply elem_of_nil in Hin.
  - split; [done|]. by exists r.
Qed.

Lemma get_grad_required_state_dict_values_witness :
  requires_grad (detach (example_tensor 2%N)) = false ∧
  ∃ r, ("h.0.bias", r) ∈ named_parameters example_model ∧
       requires_grad (tensors example_world r) = true ∧
       detach (example_tensor 2%N) = detach (tensors example_world r) ∧
       storage (detach (example_tensor 2%N)) = storage (tensors example_world r).
Proof.
  apply (get_grad_required_state_dict_values example_model example_world
           [("h.0.weight", detach (example_tensor 1%N));
            ("h.0.bias", detach (example_tensor 2%N))]).
  - reflexivity.
  - apply list_elem_of_further, list_elem_of_here.
Defined.

(** X3. For a model none of whose parameters requires a gradient,
    [get_grad_required_state_dict] returns the empty dictionary. *)
Theorem get_grad_required_state_dict_frozen model w :
  (∀ name r, (name, r) ∈ named_parameters model →
             requires_grad (tensors w r) = false) →
  get_grad_required_state_dict model w = (Return [], w).
Proof.
  intros Hfrozen. rewrite get_grad_required_state_dict_fold.
  destruct (fold_left (grad_step w) (named_parameters model) od_empty)
    as [|[name t] d] eqn:Hfold; [done|].
  assert ((name, t) ∈ fold_left (grad_step w) (named_parameters model) od_empty)
    as Hin by (rewrite Hfold; apply list_elem_of_here).
  apply grad_fold_values in Hin as [Hin|(r & Hr & Hg & _)].
  - by apply elem_of_nil in Hin.
  - rewrite (Hfrozen _ _ Hr) in Hg. discriminate.
Qed.

Lemma get_grad_required_state_dict_frozen_witness :
  get_grad_required_state_dict frozen_model example_world =
  (Return [], example_world).
Proof.
  apply (get_grad_required_state_dict_frozen frozen_model example_world).
  intros name r Hin. apply list_elem_of_singleton in Hin. by simplify_eq.
Defined.

(** X4. For a model all of whose parameters require a gradient, under
    distinct names, [get_grad_required_state_dict] returns every named
    parameter, detached, in the order of [named_parameters()]. *)
Theorem get_grad_required_state_dict_all_trainable model w :
  NoDup (named_parameters model).*1 →
  (∀ name r, (name, r) ∈ named_parameters model →
             requires_grad (tensors w r) = true) →
  get_grad_required_state_dict model w =
  (Return ((λ p, (p.1, detach (tensors w p.2))) <$> named_parameters model), w).
Proof.
  intros Hnd Hall. rewrite get_grad_required_state_dict_fold.
  rewrite grad_fold_fresh by done. simpl. do 3 f_equal.
  induction (named_parameters model) as [|[name r] l IH]; [done|].
  rewrite filter_cons_True.
  - f_equal. apply IH.
    + by apply NoDup_cons in Hnd as [_ ?].
    + intros name' r' Hin. apply (Hall name'). by apply list_elem_of_further.
  - simpl. apply (Hall name), list_elem_of_here.
Qed.

Lemma get_grad_required_state_dict_all_trainable_witness :
  get_grad_required_state_dict trainable_model example_world =
  (Return [("h.0.weight", detach (example_tensor 1%N));
           ("h.0.bias", detach (example_tensor 2%N))], example_world).
Proof.
  apply (get_grad_required_state_dict_all_trainable trainable_model
           example_world).
  - compute_done.
  - intros name r Hin.
    apply elem_of_cons in Hin as [Heq|Hin]; [by simplify_eq|].
    apply list_elem_of_singleton in Hin. by simplify_eq.
Defined.

(** ** Sharding: what the chunks are *)

Lemma elem_of_concat {A} (x : A) (l : list A) (ls : list (list A)) :
  x ∈ l → l ∈ ls → x ∈ concat ls.
Proof.
  intros Hx. induction ls as [|l' ls IH]; intros Hl.
  - by apply elem_of_nil in Hl.
  - simpl. apply elem_of_app. apply elem_of_cons in Hl as [->|Hl]; [by left|].
    right. by apply IH.
Qed.

(** The tensors of the state dict that is sharded are all detached. *)
Lemma state_fold_values w l d name t :
  (name, t) ∈ fold_left (state_step w) l d →
  (name, t) ∈ d ∨ ∃ r, (name, r) ∈ l ∧ t = detach (tensors w r).
Proof.
  revert d. induction l as [|[n r] l IH]; intros d Hin; [by left|].
  simpl in Hin. destruct (IH _ Hin) as [Hd|(r' & Hr' & ->)].
  - apply od_set_elem in Hd as [Heq|Hd]; [|by left].
    simplify_eq. right. exists r. split; [apply list_elem_of_here|done].
  - right. exists r'. split; [by apply list_elem_of_further|done].
Qed.

Lemma selected_state_dict_detached w config model name t :
  (name, t) ∈ selected_state_dict w config model → requires_grad t = false.
Proof.
  unfold selected_state_dict. destruct (requires_grad_only config); intros Hin.
  - apply grad_fold_values in Hin as [Hin|(r & _ & _ & ->)]; [|done].
    by apply elem_of_nil in Hin.
  - apply state_fold_values in Hin as [Hin|(r & _ & ->)]; [|done].
    by apply elem_of_nil in Hin.
Qed.

(** What is yielded, put end to end, is a prefix of the state dict. *)
Lemma get_model_state_dict_shard_prefix unwrap_model model config w :
  ∃ chunks dropped,
    get_model_state_dict_shard unwrap_model model config w = (Return chunks, w) ∧
    concat chunks ++ dropped = selected_state_dict w config (unwrap_model model) ∧
    Forall (λ p, nbytes p.2 = 0) dropped.
Proof.
  rewrite get_model_state_dict_shard_eval.
  destruct (config !! "shard_size") as [shard_size|].
  - destruct (shard_loop_concat (as_int shard_size)
                (selected_state_dict w config (unwrap_model model)) 0 od_empty)
      as (dropped & Heq & Hzero); [apply selected_state_dict_NoDup|done|].
    eexists _, dropped. by split_and!.
  - eexists _, []. split_and!; [done| |constructor].
    simpl. by rewrite !app_nil_r.
Qed.

(** X5. Whatever the configuration, what [get_model_state_dict_shard]
    yields, put end to end, is the state dict from its first entry on, in
    order, and the entries that are missing at its end are tensors without
    bytes: no entry is yielded twice, out of order or changed, and none
    that holds bytes is lost. *)
Theorem get_model_state_dict_shard_loses_only_empty_tensors
    unwrap_model model config w :
  ∃ chunks dropped,
    get_model_state_dict_shard unwrap_model model config w = (Return chunks, w) ∧
    concat chunks ++ dropped = selected_state_dict w config (unwrap_model model) ∧
    Forall (λ p, numel p.2 = 0) dropped.
Proof.
  destruct (get_model_state_dict_shard_prefix unwrap_model model config w)
    as (chunks & dropped & Hrun & Heq & Hzero).
  exists chunks, dropped. split_and!; [done..|].
  eapply Forall_impl; [exact Hzero|]. intros p Hp. unfold nbytes in Hp. nia.
Qed.

(** X6. When every tensor of the state dict holds bytes, the dictionaries
    that [get_model_state_dict_shard] yields, put end to end, are the
    state dict: sharding loses nothing. *)
Theorem get_model_state_dict_shard_lossless unwrap_model model config w :
  Forall (λ p, 0 < nbytes p.2)
    (selected_state_dict w config (unwrap_model model)) →
  ∃ chunks,
    get_model_state_dict_shard unwrap_model model config w = (Return chunks, w) ∧
    concat chunks = selected_state_dict w config (unwrap_model model).
Proof.
  intros Hpos.
  destruct (get_model_state_dict_shard_prefix unwrap_model model config w)
    as (chunks & dropped & Hrun & Heq & Hzero).
  exists chunks. split; [done|].
  destruct dropped as [|p dropped]; [by rewrite app_nil_r in Heq|].
  exfalso. apply Forall_cons in Hzero as [Hp _].
  assert (p ∈ selected_state_dict w config (unwrap_model model)) as Hin.
  { rewrite <- Heq. apply elem_of_app. right. apply list_elem_of_here. }
  rewrite Forall_forall in Hpos. specialize (Hpos p Hin). lia.
Qed.

Lemma get_model_state_dict_shard_lossless_witness :
  ∃ chunks,
    get_model_state_dict_shard id trainable_model
      {["shard_size" := VInt 16]} example_world = (Return chunks, example_world) ∧
    concat chunks =
    selected_state_dict example_world {["shard_size" := VInt 16]}
      (id trainable_model).
Proof.
  apply (get_model_state_dict_shard_lossless id trainable_model
           {["shard_size" := VInt 16]} example_world).
  repeat constructor.
Defined.

(** X7. No name comes in two of the dictionaries that
    [get_model_state_dict_shard] yields, nor twice in one: a receiver that
    merges them overwrites nothing. *)
Theorem get_model_state_dict_shard_keys_distinct unwrap_model model config w :
  ∃ chunks,
    get_model_state_dict_shard unwrap_model model config w = (Return chunks, w) ∧
    NoDup (od_keys (concat chunks)).
Proof.
  destruct (get_model_state_dict_shard_prefix unwrap_model model config w)
    as (chunks & dropped & Hrun & Heq & _).
  exists chunks. split; [done|].
  pose proof (selected_state_dict_NoDup w config (unwrap_model model)) as Hnd.
  rewrite <- Heq in Hnd. unfold od_keys in *. rewrite fmap_app in Hnd.
  by apply NoDup_app in Hnd as [? _].
Qed.

(** X8. No tensor that [get_model_state_dict_shard] yields requires a
    gradient: the state dict is made of detached tensors, with or without
    [requires_grad_only]. *)
Theorem get_model_state_dict_shard_detached unwrap_model model config w
    chunks chunk name t :
  get_model_state_dict_shard unwrap_model model config w = (Return chunks, w) →
  chunk ∈ chunks → (name, t) ∈ chunk → requires_grad t = false.
Proof.
  intros Hrun Hchunk Hin.
  destruct (get_model_state_dict_shard_prefix unwrap_model model config w)
    as (chunks' & dropped & Hrun' & Heq & _).
  rewrite Hrun in Hrun'. injection Hrun' as <-.
  apply (selected_state_dict_detached w config (unwrap_model model) name).
  rewrite <- Heq. apply elem_of_app. left.
  by apply (elem_of_concat _ chunk).
Qed.

Lemma get_model_state_dict_shard_detached_witness :
  requires_grad (detach (example_tensor 1%N)) = false.
Proof.
  apply (get_model_state_dict_shard_detached id example_model
           {["shard_size" := VInt 16]} example_world
           [ [("wte.weight", detach (example_tensor 0%N))];
             [("h.0.weight", detach (example_tensor 1%N))];
             [("h.0.bias", detach (example_tensor 2%N))] ]
           [("h.0.weight", detach (example_tensor 1%N))] "h.0.weight").
  - reflexivity.
  - apply list_elem_of_further, list_elem_of_here.
  - apply list_elem_of_here.
Defined.

(** X9. With [requires_grad_only] set, every tensor that
    [get_model_state_dict_shard] yields is the detached view of a
    parameter of the unwrapped model that requires a gradient: no frozen
    parameter and no buffer is yielded. *)
Theorem get_model_state_dict_shard_requires_grad_only unwrap_model model
    config w chunks chunk name t :
  requires_grad_only config = true →
  get_model_state_dict_shard unwrap_model model config w = (Return chunks, w) →
  chunk ∈ chunks → (name, t) ∈ chunk →
  ∃ r, (name, r) ∈ named_parameters (unwrap_model model) ∧
       requires_grad (tensors w r) = true ∧
       t = detach (tensors w r).
Proof.
  intros Honly Hrun Hchunk Hin.
  destruct (get_model_state_dict_shard_prefix unwrap_model model config w)
    as (chunks' & dropped & Hrun' & Heq & _).
  rewrite Hrun in Hrun'. injection Hrun' as <-.
  assert ((name, t) ∈ selected_state_dict w config (unwrap_model model)) as Hsel.
  { rewrite <- Heq. apply elem_of_app. left.
    by apply (elem_of_concat _ chunk). }
  unfold selected_state_dict in Hsel. rewrite Honly in Hsel.
  apply grad_fold_values in Hsel as [Hnil|?]; [|done].
  by apply elem_of_nil in Hnil.
Qed.

Lemma get_model_state_dict_shard_requires_grad_only_witness :
  ∃ r, ("h.0.bias", r) ∈ named_parameters (id example_model) ∧
       requires_grad (tensors example_world r) = true ∧
       detach (example_tensor 2%N) = detach (tensors example_world r).
Proof.
  apply (get_model_state_dict_shard_requires_grad_only id example_model
           {["requires_grad_only" := VBool true]} example_world
           [ [("h.0.weight", detach (example_tensor 1%N));
              ("h.0.bias", detach (example_tensor 2%N))] ]
           [("h.0.weight", detach (example_tensor 1%N));
            ("h.0.bias", detach (example_tensor 2%N))]).
  - reflexivity.
  - reflexivity.
  - apply list_elem_of_here.
  - apply list_elem_of_further, list_elem_of_here.
Defined.

(** ** Sharding: the sizes *)

(** A threshold that is not positive is reached by every tensor. *)
Lemma shard_loop_nonpositive shard_size (items : OrderedDict Tensor) :
  shard_size ≤ 0 →
  shard_loop shard_size items 0 od_empty = map (λ p, [p]) items.
Proof.
  intros Hsize. induction items as [|[name param] items IH]; [done|].
  simpl. pose proof (nbytes_nonneg param).
  destruct (shard_size <=? 0 + nbytes param) eqn:Hflush.
  - by rewrite IH.
  - apply Z.leb_gt in Hflush. lia.
Qed.

(** X10. With a [shard_size] of zero or less,
    [get_model_state_dict_shard] yields every entry of the state dict in a
    dictionary of its own, in order, tensors without bytes included. *)
Theorem get_model_state_dict_shard_nonpositive unwrap_model model config w
    shard_size :
  config !! "shard_size" = Some shard_size → as_int shard_size ≤ 0 →
  get_model_state_dict_shard unwrap_model model config w =
  (Return (map (λ p, [p]) (selected_state_dict w config (unwrap_model model))), w).
Proof.
  intros Hconfig Hsize. rewrite get_model_state_dict_shard_eval, Hconfig.
  by rewrite shard_loop_nonpositive.
Qed.

Lemma get_model_state_dict_shard_nonpositive_witness :
  get_model_state_dict_shard id example_model {["shard_size" := VInt 0]}
    example_world =
  (Return (map (λ p, [p])
             (selected_state_dict example_world {["shard_size" := VInt 0]}
                (id example_model))), example_world).
Proof.
  apply (get_model_state_dict_shard_nonpositive id example_model
           {["shard_size" := VInt 0]} example_world (VInt 0)).
  - reflexivity.
  - simpl. lia.
Defined.

(** A threshold above all the bytes is never reached in the loop. *)
Lemma shard_loop_below shard_size items accumulate_size state_dict_shard :
  NoDup (od_keys state_dict_shard ++ items.*1) →
  accumulate_size + total_bytes items < shard_size →
  shard_loop shard_size items accumulate_size state_dict_shard =
  if 0 <? accumulate_size + total_bytes items
  then [state_dict_shard ++ items] else [].
Proof.
  revert accumulate_size state_dict_shard.
  induction items as [|[name param] items IH]; intros acc shard Hnd Hsize.
  - simpl. rewrite app_nil_r. unfold total_bytes. simpl. by rewrite Z.add_0_r.
  - change (total_bytes ((name, param) :: items))
      with (nbytes param + total_bytes items) in *.
    simpl. pose proof (total_bytes_nonneg items).
    apply NoDup_app in Hnd as (Hshard & Hdisj & Hitems).
    apply NoDup_cons in Hitems as [Hname Hitems].
    assert (name ∉ od_keys shard) as Hfresh.
    { intros Hin. apply (Hdisj _ Hin), list_elem_of_here. }
    rewrite (od_set_fresh _ _ _ Hfresh).
    destruct (shard_size <=? acc + nbytes param) eqn:Hflush.
    { apply Z.leb_le in Hflush. lia. }
    rewrite IH.
    + rewrite <- app_assoc. simpl. by rewrite Z.add_assoc.
    + unfold od_keys. rewrite fmap_app, <- app_assoc. simpl.
      apply NoDup_app. split_and!; [done| |by apply NoDup_cons].
      intros x Hx Hx'. by apply (Hdisj x).
    + lia.
Qed.

(** X11. With a [shard_size] above the bytes of the whole state dict,
    [get_model_state_dict_shard] yields the state dict as one dictionary
    when it holds bytes, and yields nothing when it holds none. *)
Theorem get_model_state_dict_shard_single unwrap_model model config w
    shard_size :
  config !! "shard_size" = Some shard_size →
  total_bytes (selected_state_dict w config (unwrap_model model))
    < as_int shard_size →
  get_model_state_dict_shard unwrap_model model config w =
  (Return
     (if 0 <? total_bytes (selected_state_dict w config (unwrap_model model))
      then [selected_state_dict w config (unwrap_model model)]
      else []), w).
Proof.
  intros Hconfig Hsize. rewrite get_model_state_dict_shard_eval, Hconfig.
  rewrite shard_loop_below.
  - done.
  - apply selected_state_dict_NoDup.
  - lia.
Qed.

Lemma get_model_state_dict_shard_single_witness :
  get_model_state_dict_shard id example_model {["shard_size" := VInt 1000]}
    example_world =
  (Return
     (if 0 <? total_bytes
                (selected_state_dict example_world
                   {["shard_size" := VInt 1000]} (id example_model))
      then [selected_state_dict example_world {["shard_size" := VInt 1000]}
              (id example_model)]
      else []), example_world).
Proof.
  apply (get_model_state_dict_shard_single id example_model
           {["shard_size" := VInt 1000]} example_world (VInt 1000)).
  - reflexivity.
  - reflexivity.
Defined.

(** While the names are distinct and the dictionary being filled is
    below a positive threshold, every dictionary yielded is one that was
    below the threshold and its last entry. *)
Lemma shard_loop_bound shard_size items accumulate_size state_dict_shard :
  0 < shard_size →
  NoDup (od_keys state_dict_shard ++ items.*1) →
  accumulate_size = total_bytes state_dict_shard →
  accumulate_size < shard_size →
  Forall (λ chunk, ∃ init last, chunk = init ++ [last] ∧
                                total_bytes init < shard_size)
    (shard_loop shard_size items accumulate_size state_dict_shard).
Proof.
  intros Hpos. revert accumulate_size state_dict_shard.
  induction items as [|[name param] items IH]; intros acc shard Hnd -> Hacc;
    simpl.
  - destruct (0 <? total_bytes shard) eqn:Hbytes; [|constructor].
    constructor; [|constructor].
    destruct shard as [|p shard _] using rev_ind; [done|].
    exists shard, p. split; [done|].
    rewrite total_bytes_app in Hacc. unfold total_bytes at 2 in Hacc.
    simpl in Hacc. pose proof (nbytes_nonneg p.2). lia.
  - apply NoDup_app in Hnd as (Hshard & Hdisj & Hitems).
    apply NoDup_cons in Hitems as [Hname Hitems].
    assert (name ∉ od_keys shard) as Hfresh.
    { intros Hin. apply (Hdisj _ Hin), list_elem_of_here. }
    rewrite (od_set_fresh _ _ _ Hfresh).
    assert (total_bytes shard + nbytes param
            = total_bytes (shard ++ [(name, param)])) as Hsize.
    { rewrite total_bytes_app. unfold total_bytes. simpl. lia. }
    destruct (shard_size <=? total_bytes shard + nbytes param) eqn:Hflush.
    + constructor; [by exists shard, (name, param)|].
      by apply (IH 0 od_empty).
    + apply Z.leb_gt in Hflush.
      apply (IH _ (shard ++ [(name, param)])); [|done|lia].
      unfold od_keys. rewrite fmap_app, <- app_assoc. simpl.
      apply NoDup_app. split_and!; [done| |by apply NoDup_cons].
      intros x Hx Hx'. by apply (Hdisj x).
Qed.

(** X12. With a positive [shard_size], every dictionary that
    [get_model_state_dict_shard] yields was below [shard_size] before its
    last entry went in: it holds less than [shard_size] bytes plus the
    bytes of its last tensor. *)
Theorem get_model_state_dict_shard_bound unwrap_model model config w
    shard_size chunks chunk :
  config !! "shard_size" = Some shard_size → 0 < as_int shard_size →
  get_model_state_dict_shard unwrap_model model config w = (Return chunks, w) →
  chunk ∈ chunks →
  ∃ init last,
    chunk = init ++ [last] ∧
    total_bytes init < as_int shard_size ∧
    total_bytes chunk < as_int shard_size + nbytes last.2.
Proof.
  intros Hconfig Hpos. rewrite get_model_state_dict_shard_eval, Hconfig.
  intros [= <-] Hchunk.
  pose proof (shard_loop_bound (as_int shard_size)
                (selected_state_dict w config (unwrap_model model)) 0 od_empty
                Hpos (selected_state_dict_NoDup _ _ _) eq_refl Hpos) as Hall.
  rewrite Forall_forall in Hall.
  destruct (Hall chunk Hchunk) as (init & last & -> & Hinit).
  exists init, last. split_and!; [done..|].
  rewrite total_bytes_app. unfold total_bytes at 2. simpl. lia.
Qed.

Lemma get_model_state_dict_shard_bound_witness :
  ∃ init last,
    [("h.0.weight", detach (example_tensor 1%N));
     ("h.0.bias", detach (example_tensor 2%N));
     ("h.0.mask", detach (example_tensor 3%N))] = init ++ [last] ∧
    total_bytes init < 100 ∧
    total_bytes [("h.0.weight", detach (example_tensor 1%N));
                 ("h.0.bias", detach (example_tensor 2%N));
                 ("h.0.mask", detach (example_tensor 3%N))]
      < 100 + nbytes last.2.
Proof.
  apply (get_model_state_dict_shard_bound id example_model
           {["shard_size" := VInt 100]} example_world (VInt 100)
           [ [("wte.weight", detach (example_tensor 0%N))];
             [("h.0.weight", detach (example_tensor 1%N));
              ("h.0.bias", detach (example_tensor 2%N));
              ("h.0.mask", detach (example_tensor 3%N))] ]).
  - reflexivity.
  - reflexivity.
  - reflexivity.
  - apply list_elem_of_further, list_elem_of_here.
Defined.

(** ** Distributed initialization: every environment *)

(** The reads of the body, evaluated with what is known of the
    environment. *)
Ltac eval_reads :=
  repeat match goal with
  | Hs : environ ?w !! ?key = Some ?s, Hn : parse_int ?s = Some _
    |- context [bind (bind (environ_get ?key) _) _ ?w] =>
      rewrite (bind_Return _ _ _ _ _ (environ_int_Return _ _ _ _ Hs Hn))
  | Hs : environ ?w !! ?key = Some ?s, Hn : parse_int ?s = None
    |- context [bind (bind (environ_get ?key) _) _ ?w] =>
      rewrite (bind_Raise _ _ _ _ _ (environ_int_invalid _ _ _ Hs Hn))
  | Hs : environ ?w !! ?key = None
    |- context [bind (bind (environ_get ?key) _) _ ?w] =>
      rewrite (bind_Raise _ _ _ _ _ (environ_int_missing _ _ Hs))
  | Hs : environ ?w !! ?key = Some _
    |- context [bind (environ_get ?key) _ ?w] =>
      rewrite (bind_Return _ _ _ _ _ (environ_get_Return _ _ _ Hs))
  | Hs : environ ?w !! ?key = None
    |- context [bind (environ_get ?key) _ ?w] =>
      rewrite (bind_Raise _ _ _ _ _ (environ_get_missing _ _ Hs))
  end.

(** A variable that is missing, or malformed where it is converted, is
    not well-formed. *)
Lemma not_well_formed_missing w v : environ w !! v = None → ¬ well_formed w v.
Proof. intros Hv (s & Hs & _). congruence. Qed.

Lemma not_well_formed_invalid w v s :
  environ w !! v = Some s → converted v = true → parse_int s = None →
  ¬ well_formed w v.
Proof.
  intros Hv Hc Hn (s' & Hs' & Hp). destruct (Hp Hc) as [n Hn'].
  congruence.
Qed.

(** The body either stops while it reads the environment, on an
    [Exception] that is the same for all libraries and with the world as
    it was, or finds the five variables well-formed. *)
Lemma _try_init_dist_body_cases w :
  (∃ e, (∀ library, _try_init_dist_body library w = (Raise e, w)) ∧
        is_Exception e = true ∧
        ∃ v, v ∈ required_variables ∧ ¬ well_formed w v) ∨
  (∃ rank_s local_rank_s world_size_s host port_s
     rank local_rank world_size port,
     environ w !! "RANK" = Some rank_s ∧ parse_int rank_s = Some rank ∧
     environ w !! "LOCAL_RANK" = Some local_rank_s ∧
     parse_int local_rank_s = Some local_rank ∧
     environ w !! "WORLD_SIZE" = Some world_size_s ∧
     parse_int world_size_s = Some world_size ∧
     environ w !! "MASTER_ADDR" = Some host ∧
     environ w !! "MASTER_PORT" = Some port_s ∧ parse_int port_s = Some port).
Proof.
  destruct (environ w !! "RANK") as [rank_s|] eqn:Hr;
    [destruct (parse_int rank_s) as [rank|] eqn:Hr'|].
  2: { left. eexists. split_and!;
         [intros library; unfold _try_init_dist_body; by eval_reads
         |first [done|apply int_error_Exception]|].
       exists "RANK". split; [required|by eapply not_well_formed_invalid]. }
  2: { left. eexists. split_and!;
         [intros library; unfold _try_init_dist_body; by eval_reads
         |first [done|apply int_error_Exception]|].
       exists "RANK". split; [required|by apply not_well_formed_missing]. }
  destruct (environ w !! "LOCAL_RANK") as [local_rank_s|] eqn:Hl;
    [destruct (parse_int local_rank_s) as [local_rank|] eqn:Hl'|].
  2: { left. eexists. split_and!;
         [intros library; unfold _try_init_dist_body; by eval_reads
         |first [done|apply int_error_Exception]|].
       exists "LOCAL_RANK".
       split; [required|by eapply not_well_formed_invalid]. }
  2: { left. eexists. split_and!;
         [intros library; unfold _try_init_dist_body; by eval_reads
         |first [done|apply int_error_Exception]|].
       exists "LOCAL_RANK".
       split; [required|by apply not_well_formed_missing]. }
  destruct (environ w !! "WORLD_SIZE") as [world_size_s|] eqn:Hw;
    [destruct (parse_int world_size_s) as [world_size|] eqn:Hw'|].
  2: { left. eexists. split_and!;
         [intros library; unfold _try_init_dist_body; by eval_reads
         |first [done|apply int_error_Exception]|].
       exists "WORLD_SIZE".
       split; [required|by eapply not_well_formed_invalid]. }
  2: { left. eexists. split_and!;
         [intros library; unfold _try_init_dist_body; by eval_reads
         |first [done|apply int_error_Exception]|].
       exists "WORLD_SIZE".
       split; [required|by apply not_well_formed_missing]. }
  destruct (environ w !! "MASTER_ADDR") as [host|] eqn:Hh.
  2: { left. eexists. split_and!;
         [intros library; unfold _try_init_dist_body; by eval_reads
         |first [done|apply int_error_Exception]|].
       exists "MASTER_ADDR".
       split; [required|by apply not_well_formed_missing]. }
  destruct (environ w !! "MASTER_PORT") as [port_s|] eqn:Hp;
    [destruct (parse_int port_s) as [port|] eqn:Hp'|].
  2: { left. eexists. split_and!;
         [intros library; unfold _try_init_dist_body; by eval_reads
         |first [done|apply int_error_Exception]|].
       exists "MASTER_PORT".
       split; [required|by eapply not_well_formed_invalid]. }
  2: { left. eexists. split_and!;
         [intros library; unfold _try_init_dist_body; by eval_reads
         |first [done|apply int_error_Exception]|].
       exists "MASTER_PORT".
       split; [required|by apply not_well_formed_missing]. }
  right. by exists rank_s, local_rank_s, world_size_s, host, port_s,
                   rank, local_rank, world_size, port.
Qed.

(** Two external calls in a row. *)
Lemma extern_twice library c1 c2 w :
  bind (extern library c1) (λ _, extern library c2) w =
  match library c1 w with
  | Some e => (Raise e, record_call c1 w)
  | None =>
      match library c2 (record_call c1 w) with
      | Some e => (Raise e, record_call c2 (record_call c1 w))
      | None => (Return tt, record_call c2 (record_call c1 w))
      end
  end.
Proof. unfold bind, extern. by destruct (library c1 w). Qed.

(** Without [force], an [Exception] never leaves [_try_init_dist]. *)
Lemma _try_init_dist_unforced_Exception library w e w' :
  _try_init_dist_body library w = (Raise e, w') → is_Exception e = true →
  _try_init_dist library false w = (Return tt, w').
Proof.
  intros Hbody Hexn. rewrite (_try_init_dist_Raise _ _ _ _ _ Hbody), Hexn.
  by destruct (is_KeyError e).
Qed.

(** With [force], [_try_init_dist] returns only when its body does. *)
Lemma _try_init_dist_forced_Return library w w' :
  _try_init_dist library true w = (Return tt, w') →
  _try_init_dist_body library w = (Return tt, w').
Proof.
  destruct (_try_init_dist_body library w) as [[[]|e] w''] eqn:Hbody.
  - by rewrite (_try_init_dist_Return _ _ _ _ Hbody).
  - rewrite (_try_init_dist_Raise _ _ _ _ _ Hbody).
    by destruct (is_KeyError e), (is_Exception e).
Qed.

(** X13. When the libraries raise nothing but [Exception]s,
    [setup_distributed] returns whatever the environment is and whatever
    fails: a missing or malformed variable, the initialization of the
    process group, or the selection of the device after the process group
    was initialized. *)
Theorem setup_distributed_returns library w :
  (∀ c w0 e, library c w0 = Some e → is_Exception e = true) →
  (setup_distributed library w).1 = Return tt.
Proof.
  intros Hlib. unfold setup_distributed.
  destruct (_try_init_dist_body_cases w)
    as [(e & Hbody & Hexn & _)
       |(rank_s & local_rank_s & world_size_s & host & port_s & rank &
         local_rank & world_size & port &
         Hr & Hr' & Hl & Hl' & Hw & Hw' & Hh & Hp & Hp')].
  - by rewrite (_try_init_dist_unforced_Exception _ _ _ _ (Hbody library) Hexn).
  - pose proof (_try_init_dist_body_reaches_library library w _ _ _ _ _ _ _ _ _
                  Hr Hr' Hl Hl' Hw Hw' Hh Hp Hp') as Hbody.
    rewrite extern_twice in Hbody.
    destruct (library _ w) as [e|] eqn:Hinit.
    { by rewrite (_try_init_dist_unforced_Exception _ _ _ _ Hbody
                    (Hlib _ _ _ Hinit)). }
    destruct (library (set_device local_rank) _) as [e|] eqn:Hdev.
    { by rewrite (_try_init_dist_unforced_Exception _ _ _ _ Hbody
                    (Hlib _ _ _ Hdev)). }
    by rewrite (_try_init_dist_Return _ _ _ _ Hbody).
Qed.

Lemma setup_distributed_returns_witness :
  (setup_distributed library_no_device launched_world).1 = Return tt.
Proof.
  apply (setup_distributed_returns library_no_device launched_world).
  intros c w0 e Hraise. destruct c; simpl in Hraise; by simplify_eq.
Defined.

(** X14. When [_try_init_dist(force=True)] returns, in an environment
    whose numbers are ASCII, the five variables were present and the four
    numbers well-formed, and the process group was initialized on the
    endpoint they give and the device selected: these two calls, in this
    order, are what it added to the world. *)
Theorem _try_init_dist_forced_return library w w' :
  ascii_numbers w →
  _try_init_dist library true w = (Return tt, w') →
  ∃ rank_s local_rank_s world_size_s host port_s
    rank local_rank world_size port,
    environ w !! "RANK" = Some rank_s ∧ parse_int rank_s = Some rank ∧
    environ w !! "LOCAL_RANK" = Some local_rank_s ∧
    parse_int local_rank_s = Some local_rank ∧
    environ w !! "WORLD_SIZE" = Some world_size_s ∧
    parse_int world_size_s = Some world_size ∧
    environ w !! "MASTER_ADDR" = Some host ∧
    environ w !! "MASTER_PORT" = Some port_s ∧ parse_int port_s = Some port ∧
    w' = record_call (set_device local_rank)
           (record_call
              (init_process_group "nccl"
                 ("tcp://[" +:+ host +:+ "]:" +:+ str_of_int port)
                 world_size rank) w).
Proof.
  intros _ Hreturn. apply _try_init_dist_forced_Return in Hreturn.
  destruct (_try_init_dist_body_cases w)
    as [(e & Hbody & _)
       |(rank_s & local_rank_s & world_size_s & host & port_s & rank &
         local_rank & world_size & port &
         Hr & Hr' & Hl & Hl' & Hw & Hw' & Hh & Hp & Hp')].
  - rewrite (Hbody library) in Hreturn. discriminate.
  - exists rank_s, local_rank_s, world_size_s, host, port_s,
           rank, local_rank, world_size, port.
    split_and!; [done..|].
    rewrite (_try_init_dist_body_reaches_library library w _ _ _ _ _ _ _ _ _
               Hr Hr' Hl Hl' Hw Hw' Hh Hp Hp'), extern_twice in Hreturn.
    destruct (library _ w); [discriminate|].
    destruct (library (set_device local_rank) _); [discriminate|].
    by simplify_eq.
Qed.

Lemma _try_init_dist_forced_return_witness :
  ∃ rank_s local_rank_s world_size_s host port_s
    rank local_rank world_size port,
    environ launched_world !! "RANK" = Some rank_s ∧
    parse_int rank_s = Some rank ∧
    environ launched_world !! "LOCAL_RANK" = Some local_rank_s ∧
    parse_int local_rank_s = Some local_rank ∧
    environ launched_world !! "WORLD_SIZE" = Some world_size_s ∧
    parse_int world_size_s = Some world_size ∧
    environ launched_world !! "MASTER_ADDR" = Some host ∧
    environ launched_world !! "MASTER_PORT" = Some port_s ∧
    parse_int port_s = Some port ∧
    record_call (set_device 1)
      (record_call (init_process_group "nccl" "tcp://[10.0.0.7]:29500" 4 1)
         launched_world) =
    record_call (set_device local_rank)
      (record_call
         (init_process_group "nccl"
            ("tcp://[" +:+ host +:+ "]:" +:+ str_of_int port)
            world_size rank) launched_world).
Proof.
  apply (_try_init_dist_forced_return library_ok launched_world).
  - intros v s Hv _. unfold required_variables in Hv.
    repeat (apply elem_of_cons in Hv as [->|Hv];
            [by intros [= <-]|]).
    by apply elem_of_nil in Hv.
  - reflexivity.
Defined.

(** X15. Whatever the environment, the libraries and [force],
    [_try_init_dist] leaves the environment and the tensors as they were
    and calls the libraries at most twice: nothing, or
    [init_process_group] with the backend [nccl], or that and then
    [set_device].  The device is never selected before, or without, the
    initialization of the process group. *)
Theorem _try_init_dist_calls library force w :
  environ (_try_init_dist library force w).2 = environ w ∧
  tensors (_try_init_dist library force w).2 = tensors w ∧
  ∃ made,
    calls (_try_init_dist library force w).2 = calls w ++ made ∧
    (made = [] ∨
     (∃ init_method world_size rank,
        made = [init_process_group "nccl" init_method world_size rank]) ∨
     (∃ init_method world_size rank device,
        made = [init_process_group "nccl" init_method world_size rank;
                set_device device])).
Proof.
  rewrite _try_init_dist_world.
  destruct (_try_init_dist_body_cases w)
    as [(e & Hbody & _)
       |(rank_s & local_rank_s & world_size_s & host & port_s & rank &
         local_rank & world_size & port &
         Hr & Hr' & Hl & Hl' & Hw & Hw' & Hh & Hp & Hp')].
  - rewrite (Hbody library). split_and!; [done..|].
    exists []. split; [by rewrite app_nil_r|by left].
  - rewrite (_try_init_dist_body_reaches_library library w _ _ _ _ _ _ _ _ _
               Hr Hr' Hl Hl' Hw Hw' Hh Hp Hp'), extern_twice.
    destruct (library _ w).
    { split_and!; [done..|]. eexists. split; [done|]. right. left. eauto. }
    destruct (library (set_device local_rank) _);
      (split_and!; [done..|]; eexists; split;
       [simpl; by rewrite <- app_assoc|]; right; right; eauto).
Qed.

(** X16. When, in an environment whose numbers are ASCII, one of the
    five variables is missing, or is not a number where a number is read,
    [_try_init_dist] calls no library and leaves the world as it was,
    with and without [force]; what it returns or raises does not depend
    on the libraries. *)
Theorem _try_init_dist_incomplete library force w v :
  ascii_numbers w →
  v ∈ required_variables → ¬ well_formed w v →
  (_try_init_dist library force w).2 = w ∧
  ∀ library', _try_init_dist library' force w = _try_init_dist library force w.
Proof.
  intros _ Hv Hbad.
  destruct (_try_init_dist_body_cases w)
    as [(e & Hbody & _)
       |(rank_s & local_rank_s & world_size_s & host & port_s & rank &
         local_rank & world_size & port &
         Hr & Hr' & Hl & Hl' & Hw & Hw' & Hh & Hp & Hp')].
  - split.
    + by rewrite _try_init_dist_world, (Hbody library).
    + intros library'.
      by rewrite !(_try_init_dist_Raise _ _ _ _ _ (Hbody _)).
  - exfalso. apply Hbad. unfold required_variables in Hv.
    apply elem_of_cons in Hv as [->|Hv]; [by exists rank_s|].
    apply elem_of_cons in Hv as [->|Hv]; [by exists local_rank_s|].
    apply elem_of_cons in Hv as [->|Hv]; [by exists world_size_s|].
    apply elem_of_cons in Hv as [->|Hv].
    { exists host. split; [done|]. intros Hc. by vm_compute in Hc. }
    apply elem_of_cons in Hv as [->|Hv]; [by exists port_s|].
    by apply elem_of_nil in Hv.
Qed.

Lemma _try_init_dist_incomplete_witness :
  (_try_init_dist library_no_device true malformed_world).2 = malformed_world ∧
  ∀ library',
    _try_init_dist library' true malformed_world =
    _try_init_dist library_no_device true malformed_world.
Proof.
  apply (_try_init_dist_incomplete library_no_device true malformed_world
           "RANK").
  - intros v s Hv _. unfold required_variables in Hv.
    repeat (apply elem_of_cons in Hv as [->|Hv];
            [by intros [= <-]|]).
    by apply elem_of_nil in Hv.
  - required.
  - apply (not_well_formed_invalid malformed_world "RANK" "abc"); reflexivity.
Defined.

(** The body stops on the [ValueError] of the first malformed number when
    the variables read before it are well-formed. *)
Lemma _try_init_dist_body_first_invalid library w before v after s :
  required_variables = before ++ v :: after →
  (∀ u, u ∈ before → well_formed w u) →
  environ w !! v = Some s → converted v = true → parse_int s = None →
  _try_init_dist_body library w = (Raise (int_error s), w).
Proof.
  intros Hsplit Hbefore Hv Hc Hn. unfold _try_init_dist_body.
  unfold required_variables in Hsplit.
  destruct before as [|b0 before]; simplify_eq/=; [by eval_reads|].
  destruct (Hbefore "RANK") as (s0 & Hs0 & Hp0); [apply list_elem_of_here|].
  destruct (Hp0 eq_refl) as [n0 Hn0].
  destruct before as [|b1 before]; simplify_eq/=; [by eval_reads|].
  destruct (Hbefore "LOCAL_RANK") as (s1 & Hs1 & Hp1); [required|].
  destruct (Hp1 eq_refl) as [n1 Hn1].
  destruct before as [|b2 before]; simplify_eq/=; [by eval_reads|].
  destruct (Hbefore "WORLD_SIZE") as (s2 & Hs2 & Hp2); [required|].
  destruct (Hp2 eq_refl) as [n2 Hn2].
  destruct before as [|b3 before]; simplify_eq/=.
  destruct (Hbefore "MASTER_ADDR") as (s3 & Hs3 & _); [required|].
  destruct before as [|b4 before]; simplify_eq/=; [by eval_reads|].
  by destruct before.
Qed.

(** X17. When a variable that is read as a number holds an ASCII value
    that is not one, and the variables read before it are well-formed,
    [_try_init_dist(force=True)] raises a [ValueError], also when
    variables read after it are missing, and [_try_init_dist(force=False)]
    returns; no library is called. *)
Theorem _try_init_dist_malformed library w before v after s :
  required_variables = before ++ v :: after →
  (∀ u, u ∈ before → well_formed w u) →
  environ w !! v = Some s → converted v = true →
  is_ascii s = true → parse_int s = None →
  ∃ msg,
    _try_init_dist library true w = (Raise (Exn ValueError msg), w) ∧
    _try_init_dist library false w = (Return tt, w).
Proof.
  intros Hsplit Hbefore Hv Hc _ Hn.
  pose proof (_try_init_dist_body_first_invalid library w _ _ _ _
                Hsplit Hbefore Hv Hc Hn) as Hbody.
  pose proof (int_error_class s) as Hclass.
  rewrite !(_try_init_dist_Raise _ _ _ _ _ Hbody).
  rewrite int_error_not_KeyError, int_error_Exception.
  destruct (int_error s) as [class msg]. simpl in Hclass. subst class.
  by exists msg.
Qed.

Lemma _try_init_dist_malformed_witness :
  ∃ msg,
    _try_init_dist library_ok true half_malformed_world =
      (Raise (Exn ValueError msg), half_malformed_world) ∧
    _try_init_dist library_ok false half_malformed_world =
      (Return tt, half_malformed_world).
Proof.
  apply (_try_init_dist_malformed library_ok half_malformed_world
           ["RANK"] "LOCAL_RANK" ["WORLD_SIZE"; "MASTER_ADDR"; "MASTER_PORT"]
           "1.5").
  - reflexivity.
  - intros u Hu. apply list_elem_of_singleton in Hu as ->.
    exists "0". split; [reflexivity|]. intros _. by exists 0.
  - reflexivity.
  - reflexivity.
  - reflexivity.
  - reflexivity.
Defined.

(** ** Saving a checkpoint: failures *)

(** What [save_pretrained] does, case by case. *)
Lemma save_pretrained_cases unwrap_model library model path only_rank0
    tokenizer w :
  save_pretrained unwrap_model library model path only_rank0 tokenizer w =
  let save := model_save_pretrained (unwrap_model model) path in
  if is_PreTrainedModel (unwrap_model model) then
    match library save w with
    | Some e => (Raise e, record_call save w)
    | None =>
        match tokenizer with
        | None => (Return tt, record_call save w)
        | Some tokenizer =>
            let save' := tokenizer_save_pretrained tokenizer path in
            match library save' (record_call save w) with
            | Some e => (Raise e, record_call save' (record_call save w))
            | None => (Return tt, record_call save' (record_call save w))
            end
        end
    end
  else (Raise (Exn AssertionError ""), w).
Proof.
  unfold save_pretrained, bind, assertion.
  destruct (is_PreTrainedModel (unwrap_model model)); [|done].
  unfold ret at 1, extern at 1. simpl.
  destruct (library _ w); [done|]. by destruct tokenizer.
Qed.

(** X18. [save_pretrained] returns exactly when the unwrapped model is a
    [PreTrainedModel], the serialization of the model returns and, if a
    tokenizer was given, its serialization returns too: no failure is
    swallowed. *)
Theorem save_pretrained_returns_iff unwrap_model library model path
    only_rank0 tokenizer w :
  (save_pretrained unwrap_model library model path only_rank0
     tokenizer w).1 = Return tt ↔
  is_PreTrainedModel (unwrap_model model) = true ∧
  library (model_save_pretrained (unwrap_model model) path) w = None ∧
  ∀ t, tokenizer = Some t →
       library (tokenizer_save_pretrained t path)
         (record_call (model_save_pretrained (unwrap_model model) path) w)
         = None.
Proof.
  rewrite save_pretrained_cases. simpl.
  destruct (is_PreTrainedModel (unwrap_model model));
    [|split; [discriminate|by intros [? _]]].
  destruct (library _ w) as [e|];
    [split; [discriminate|by intros (_ & ? & _)]|].
  destruct tokenizer as [t|]; [|by split_and!].
  destruct (library (tokenizer_save_pretrained t path) _) as [e|] eqn:Htok.
  - split; [discriminate|]. intros (_ & _ & Ht).
    specialize (Ht t eq_refl). congruence.
  - split; [|done]. intros _. split_and!; [done..|]. by intros ? [= <-].
Qed.

(** X19. An exception that leaves [save_pretrained] is its own
    [AssertionError], raised before anything is written, or the very
    exception a serialization call raised; when it comes from the
    serialization of the tokenizer, the model has been serialized
    already. *)
Theorem save_pretrained_raises unwrap_model library model path only_rank0
    tokenizer w e w' :
  save_pretrained unwrap_model library model path only_rank0 tokenizer w
    = (Raise e, w') →
  let save := model_save_pretrained (unwrap_model model) path in
  (is_PreTrainedModel (unwrap_model model) = false ∧
   e = Exn AssertionError "" ∧ w' = w) ∨
  (library save w = Some e ∧ calls w' = calls w ++ [save]) ∨
  (∃ t, tokenizer = Some t ∧ library save w = None ∧
        library (tokenizer_save_pretrained t path) (record_call save w)
          = Some e ∧
        calls w' = calls w ++ [save; tokenizer_save_pretrained t path]).
Proof.
  rewrite save_pretrained_cases. simpl.
  destruct (is_PreTrainedModel (unwrap_model model));
    [|intros [= <- <-]; by left].
  destruct (library _ w) as [e0|] eqn:Hsave.
  { intros [= <- <-]. right. by left. }
  destruct tokenizer as [t|]; [|discriminate].
  destruct (library (tokenizer_save_pretrained t path) _) as [e1|] eqn:Htok;
    [|discriminate].
  intros [= <- <-]. right. right. exists t. split_and!; [done..|].
  simpl. by rewrite <- app_assoc.
Qed.

Lemma save_pretrained_raises_witness :
  (is_PreTrainedModel (id example_model) = false ∧
   Exn (OtherException "OSError") "[Errno 28] No space left on device"
     = Exn AssertionError "" ∧
   record_call (model_save_pretrained example_model "ckpt") example_world
     = example_world) ∨
  (library_disk_full (model_save_pretrained (id example_model) "ckpt")
     example_world
     = Some (Exn (OtherException "OSError")
               "[Errno 28] No space left on device") ∧
   calls (record_call (model_save_pretrained example_model "ckpt")
            example_world)
     = calls example_world ++ [model_save_pretrained (id example_model) "ckpt"]) ∨
  (∃ t, Some 7%N = Some t ∧
        library_disk_full (model_save_pretrained (id example_model) "ckpt")
          example_world = None ∧
        library_disk_full (tokenizer_save_pretrained t "ckpt")
          (record_call (model_save_pretrained (id example_model) "ckpt")
             example_world)
          = Some (Exn (OtherException "OSError")
                    "[Errno 28] No space left on device") ∧
        calls (record_call (model_save_pretrained example_model "ckpt")
                 example_world)
          = calls example_world ++
            [model_save_pretrained (id example_model) "ckpt";
             tokenizer_save_pretrained t "ckpt"]).
Proof.
  apply (save_pretrained_raises id library_disk_full example_model "ckpt"
           true (Some 7%N) example_world).
  reflexivity.
Defined.

(** ** The guard on the plugin *)

(** X20. For a strategy that passed [_post_init], [backward] is
    [loss.backward()] and nothing else: its own assertion holds, and the
    model, the optimizer and the keyword arguments play no part. *)
Theorem backward_after_post_init loss_backward self loss model optimizer
    kwargs w0 w :
  (_post_init self w0).1 = Return tt →
  backward loss_backward self loss model optimizer kwargs w =
  loss_backward loss w.
Proof.
  unfold _post_init, backward, assertion_msg, bind.
  destruct (is_None (plugin self)); [done|discriminate].
Qed.

Lemma backward_after_post_init_witness :
  backward backward_ok naive_strategy 1%N example_model 9%N ∅ example_world =
  backward_ok 1%N example_world.
Proof.
  apply (backward_after_post_init backward_ok naive_strategy 1%N
           example_model 9%N ∅ example_world example_world).
  reflexivity.
Defined.

(** X21. For a strategy with a plugin, [_post_init] and [backward] both
    stop on their assertion, each with its own message, and [backward]
    does not run [loss.backward()]: the world is as it was. *)
Theorem backward_with_plugin loss_backward self loss model optimizer
    kwargs w p :
  plugin self = Some p →
  _post_init self w =
    (Raise (Exn AssertionError
              (class_name self +:+ "'s plugin is not initialized properly.")),
     w) ∧
  backward loss_backward self loss model optimizer kwargs w =
    (Raise (Exn AssertionError "DO NOT call this method if plugin is not None"),
     w).
Proof.
  intros Hplugin. unfold _post_init, backward, assertion_msg, bind.
  by rewrite Hplugin.
Qed.

Lemma backward_with_plugin_witness :
  _post_init strategy_with_plugin example_world =
    (Raise (Exn AssertionError
              "NaiveStrategy's plugin is not initialized properly."),
     example_world) ∧
  backward backward_ok strategy_with_plugin 1%N example_model 9%N ∅
    example_world =
    (Raise (Exn AssertionError "DO NOT call this method if plugin is not None"),
     example_world).
Proof.
  apply (backward_with_plugin backward_ok strategy_with_plugin 1%N
           example_model 9%N ∅ example_world 5%N).
  reflexivity.
Defined.

(** ** Sharding: how many dictionaries *)

Lemma total_bytes_concat (chunks : list (OrderedDict Tensor)) :
  total_bytes (concat chunks) = foldr (λ chunk acc, total_bytes chunk + acc) 0 chunks.
Proof.
  induction chunks as [|chunk chunks IH]; [done|].
  simpl. by rewrite total_bytes_app, IH.
Qed.

Lemma total_bytes_flushed shard_size (flushed : list (OrderedDict Tensor)) :
  Forall (λ chunk, shard_size ≤ total_bytes chunk) flushed →
  Z.of_nat (length flushed) * shard_size
    ≤ foldr (λ chunk acc, total_bytes chunk + acc) 0 flushed.
Proof.
  induction 1 as [|chunk flushed Hchunk _ IH]; simpl; [done|]. lia.
Qed.

(** X22. With a positive [shard_size], all the dictionaries that
    [get_model_state_dict_shard] yields but one account for [shard_size]
    bytes of the state dict each: a state dict of [b] bytes is yielded in
    at most [b / shard_size + 1] dictionaries. *)
Theorem get_model_state_dict_shard_count unwrap_model model config w
    shard_size chunks :
  config !! "shard_size" = Some shard_size → 0 < as_int shard_size →
  get_model_state_dict_shard unwrap_model model config w = (Return chunks, w) →
  (Z.of_nat (length chunks) - 1) * as_int shard_size
    ≤ total_bytes (selected_state_dict w config (unwrap_model model)).
Proof.
  intros Hconfig Hpos. rewrite get_model_state_dict_shard_eval, Hconfig.
  intros [= <-].
  destruct (shard_loop_flushed (as_int shard_size)
              (selected_state_dict w config (unwrap_model model)) 0 od_empty)
    as (flushed & remainder & Heq & Hall & Hlen);
    [apply selected_state_dict_NoDup|done|].
  destruct (shard_loop_concat (as_int shard_size)
              (selected_state_dict w config (unwrap_model model)) 0 od_empty)
    as (dropped & Hconcat & _); [apply selected_state_dict_NoDup|done|].
  simpl in Hconcat. rewrite Heq in Hconcat |- *. rewrite <- Hconcat.
  rewrite total_bytes_app, concat_app, total_bytes_app, length_app.
  rewrite total_bytes_concat.
  pose proof (total_bytes_flushed _ _ Hall).
  pose proof (total_bytes_nonneg (concat remainder)).
  pose proof (total_bytes_nonneg dropped). nia.
Qed.

Lemma get_model_state_dict_shard_count_witness :
  (Z.of_nat (length [ [("wte.weight", detach (example_tensor 0%N))];
                      [("h.0.weight", detach (example_tensor 1%N));
                       ("h.0.bias", detach (example_tensor 2%N));
                       ("h.0.mask", detach (example_tensor 3%N))] ]) - 1) * 100
    ≤ total_bytes (selected_state_dict example_world
                     {["shard_size" := VInt 100]} (id example_model)).
Proof.
  apply (get_model_state_dict_shard_count id example_model
           {["shard_size" := VInt 100]} example_world (VInt 100)).
  - reflexivity.
  - reflexivity.
  - reflexivity.
Defined.
